(** * nasa-port: the query builder and the record normalisation pipeline

    A shallow embedding of

    - [nasa_port/builder/spatial.py]        ([SpatialConstraints]),
    - [nasa_port/builder/query_builder.py]  ([QueryBuilder]),
    - [nasa_port/builder/utils.py]          ([url_encode_query]),
    - [nasa_port/data_bindings/transforms.py] ([TransformRule], [DataTransformer]),

    together with the part of the Python built-ins these files call
    ([str.lower], [str.strip], [re.sub] on two fixed patterns, [int], [float],
    [str], [urllib.parse.quote]).

    Conventions of the embedding.

    - A Python [str] is a list of code points.  The code points are those
      below 256 (Rocq's [ascii]); case mapping, the [\w] class and white space
      follow Python's Unicode tables on that range.
    - A Python [int] is a [Z]; the interpreter's limit on the number of digits
      converted between [int] and [str] is not modelled.
    - A Python [float] is kept as what [repr] prints: a sign, the digit string
      and the position of the decimal point, or an infinity, or NaN.  Rounding
      to binary64, overflow and underflow are outside the model: [float]
      reads a literal exactly.
    - A call that may raise returns an [outcome]; [print] appends to a list of
      emitted lines. *)

From Stdlib Require Import String Ascii.
From Stdlib Require Import List ZArith NArith Lia Bool.
Import ListNotations.

Set Implicit Arguments.

(** A string literal as a list of code points. *)
Abbreviation py s := (list_ascii_of_string s%string).

(** ** Python built-ins *)

Module Py.

(** *** Strings *)

Definition str := list ascii.

Definition code (c : ascii) : N := N_of_ascii c.

Definition in_range (lo hi : N) (c : ascii) : bool :=
  ((lo <=? code c) && (code c <=? hi))%N.

Definition chr (n : N) : ascii := ascii_of_N n.

Fixpoint str_eqb (a b : str) : bool :=
  match a, b with
  | [], [] => true
  | x :: a', y :: b' => Ascii.eqb x y && str_eqb a' b'
  | _, _ => false
  end.

(** [c in s] for a one-character [c]. *)
Definition char_in (c : ascii) (s : str) : bool := existsb (Ascii.eqb c) s.

(** [x in xs] for a collection of strings. *)
Definition str_in (x : str) (xs : list str) : bool := existsb (str_eqb x) xs.

(** [s.startswith(p)] *)
Fixpoint startswith (s p : str) {struct p} : bool :=
  match p with
  | [] => true
  | c :: p' =>
      match s with
      | d :: s' => Ascii.eqb c d && startswith s' p'
      | [] => false
      end
  end.

(** [sub in s] *)
Fixpoint contains (s sub : str) : bool :=
  startswith s sub ||
  match s with
  | [] => false
  | _ :: s' => contains s' sub
  end.

(** [sep.join(parts)] *)
Fixpoint join (sep : str) (parts : list str) : str :=
  match parts with
  | [] => []
  | [p] => p
  | p :: rest => p ++ sep ++ join sep rest
  end.

(** [s.replace(a, b)] for one-character [a] and [b]. *)
Definition replace_char (a b : ascii) (s : str) : str :=
  map (fun c => if Ascii.eqb c a then b else c) s.

(** [str.lower] on one code point: A-Z, and the Latin-1 capitals
    U+00C0..U+00DE without the multiplication sign U+00D7. *)
Definition lower_char (c : ascii) : ascii :=
  if in_range 65 90 c || (in_range 192 222 c && negb (code c =? 215)%N)
  then chr (code c + 32)
  else c.

Definition lower (s : str) : str := map lower_char s.

(** The class [\w] of [re] on a [str] pattern: the alphanumeric code points
    and the underscore. *)
Definition is_word (c : ascii) : bool :=
  in_range 48 57 c || in_range 65 90 c || (code c =? 95)%N || in_range 97 122 c
  || (code c =? 170)%N || in_range 178 179 c || (code c =? 181)%N
  || in_range 185 186 c || in_range 188 190 c
  || in_range 192 214 c || in_range 216 246 c || in_range 248 255 c.

(** [str.isspace] on one code point: what [str.strip()] removes. *)
Definition is_space (c : ascii) : bool :=
  in_range 9 13 c || in_range 28 32 c || (code c =? 133)%N || (code c =? 160)%N.

Fixpoint lstrip_by (p : ascii -> bool) (s : str) : str :=
  match s with
  | [] => []
  | c :: s' => if p c then lstrip_by p s' else s
  end.

Definition rstrip_by (p : ascii -> bool) (s : str) : str :=
  rev (lstrip_by p (rev s)).

Definition strip_by (p : ascii -> bool) (s : str) : str :=
  rstrip_by p (lstrip_by p s).

(** [s.strip()] *)
Definition strip (s : str) : str := strip_by is_space s.

(** [s.strip(c)] for a one-character [c]. *)
Definition strip_char (c : ascii) (s : str) : str := strip_by (Ascii.eqb c) s.

(** [re.sub(r'[^\w]', '_', s)] *)
Definition sub_nonword (s : str) : str :=
  map (fun c => if is_word c then c else "_"%char) s.

(** [re.sub(r'_+', '_', s)]: every maximal run of underscores becomes one. *)
Fixpoint sub_underscores (s : str) : str :=
  match s with
  | [] => []
  | c :: s' =>
      if Ascii.eqb c "_" then
        match s' with
        | d :: _ => if Ascii.eqb d "_" then sub_underscores s' else c :: sub_underscores s'
        | [] => [c]
        end
      else c :: sub_underscores s'
  end.

(** *** Integers: [str(n)] and [int(s)] *)

Definition is_digit (c : ascii) : bool := in_range 48 57 c.

Definition digit_val (c : ascii) : N := (code c - 48)%N.

Definition digit_chr (n : N) : ascii := chr (48 + n).

(** The decimal digits of [n], most significant first; the fuel is the
    number of bits of [n], one more than the divisions by ten that are
    needed. *)
Fixpoint digits_fuel (fuel : nat) (n : N) (acc : str) : str :=
  match fuel with
  | O => acc
  | S fuel' =>
      let acc' := digit_chr (n mod 10) :: acc in
      if (n <? 10)%N then acc' else digits_fuel fuel' (n / 10) acc'
  end.

Definition digits (n : N) : str := digits_fuel (S (N.to_nat (N.size n))) n [].

(** The number a digit string denotes, continuing from [acc]. *)
Fixpoint digits_val (acc : N) (s : str) : N :=
  match s with
  | [] => acc
  | c :: s' => digits_val (10 * acc + digit_val c) s'
  end.

(** [str(n)] for an [int]. *)
Definition str_of_int (z : Z) : str :=
  if (z <? 0)%Z then "-"%char :: digits (Z.abs_N z) else digits (Z.abs_N z).

(** What [int] and [float] do to a [str] before they read it: a code point
    from 127 on becomes a blank if it is white space and ['?'] otherwise
    (no code point below 256 other than 0-9 is a decimal digit). *)
Definition to_ascii_char (c : ascii) : ascii :=
  if (code c <? 127)%N then c
  else if is_space c then " "%char else "?"%char.

(** C's [isspace], which [int] and [float] skip at both ends. *)
Definition is_c_space (c : ascii) : bool :=
  in_range 9 13 c || (code c =? 32)%N.

(** The digits of an [int] literal: single underscores are allowed between
    digits.  Returns the value, whether a digit was read, and what follows. *)
Fixpoint scan_int (prev : ascii) (seen : bool) (acc : N) (s : str)
  : option (N * bool * str) :=
  match s with
  | [] => if Ascii.eqb prev "_" then None else Some (acc, seen, [])
  | c :: s' =>
      if is_digit c then scan_int c true (10 * acc + digit_val c)%N s'
      else if Ascii.eqb c "_" then
        if Ascii.eqb prev "_" then None else scan_int c seen acc s'
      else if Ascii.eqb prev "_" then None else Some (acc, seen, s)
  end.

Definition split_sign (s : str) : bool * str :=
  match s with
  | c :: s' =>
      if Ascii.eqb c "-" then (true, s')
      else if Ascii.eqb c "+" then (false, s')
      else (false, s)
  | [] => (false, [])
  end.

(** [int(s)] for a [str] in base ten; [None] is [ValueError]. *)
Definition int_of_str (s : str) : option Z :=
  let s1 := lstrip_by is_c_space (map to_ascii_char s) in
  let '(neg, s2) := split_sign s1 in
  if startswith s2 (py "_") then None
  else
    match scan_int (chr 0) false 0%N s2 with
    | Some (n, true, rest) =>
        match lstrip_by is_c_space rest with
        | [] => Some (if neg then (- Z.of_N n)%Z else Z.of_N n)
        | _ :: _ => None
        end
    | _ => None
    end.

(** *** Floats: [repr(x)] and [float(s)] *)

(** A finite float is the sign, digit string and decimal point position
    that [repr] works from: the value is [0.d1d2...dn * 10^decpt].  Zero is
    the digit string ["0"] with [decpt = 1]. *)
Inductive float : Type :=
| FNan
| FInf (neg : bool)
| FFin (neg : bool) (ds : str) (decpt : Z).

Definition is_zero_chr (c : ascii) : bool := Ascii.eqb c "0".

(** A digit string without leading or trailing zeros, or zero itself. *)
Definition canonical_digits (ds : str) (decpt : Z) : bool :=
  forallb is_digit ds &&
  match ds with
  | [] => false
  | d :: _ =>
      if str_eqb ds (py "0") then (decpt =? 1)%Z
      else negb (is_zero_chr d) && negb (is_zero_chr (last ds "0"%char))
  end.

Definition float_ok (f : float) : bool :=
  match f with
  | FFin _ ds decpt => canonical_digits ds decpt
  | _ => true
  end.

Definition is_finite (f : float) : bool :=
  match f with
  | FFin _ _ _ => true
  | _ => false
  end.

Definition sign_str (neg : bool) : str := if neg then py "-" else [].

(** The exponent of [repr]: a sign and at least two digits. *)
Definition exp_str (e : Z) : str :=
  (if (e <? 0)%Z then "-"%char else "+"%char)
    :: (let d := digits (Z.abs_N e) in
        if (length d <? 2)%nat then "0"%char :: d else d).

(** [repr(x)], which is also [str(x)]: exponent notation when the decimal
    point lies more than three places left of the digits or more than
    sixteen places right of their start, positional notation otherwise. *)
Definition repr_float (f : float) : str :=
  match f with
  | FNan => py "nan"
  | FInf neg => sign_str neg ++ py "inf"
  | FFin neg ds decpt =>
      sign_str neg ++
      if ((decpt <=? -4) || (16 <? decpt))%Z then
        match ds with
        | [] => []
        | [d] => [d]
        | d :: rest => d :: "."%char :: rest
        end ++ "e"%char :: exp_str (decpt - 1)
      else if (decpt <=? 0)%Z then
        py "0." ++ repeat "0"%char (Z.to_nat (- decpt)) ++ ds
      else if (decpt <? Z.of_nat (length ds))%Z then
        firstn (Z.to_nat decpt) ds ++ "."%char :: skipn (Z.to_nat decpt) ds
      else
        ds ++ repeat "0"%char (Z.to_nat decpt - length ds) ++ py ".0"
  end.

(** [float] removes underscores first: each must stand between two
    digits. *)
Fixpoint strip_underscores (prev : ascii) (s : str) : option str :=
  match s with
  | [] => if Ascii.eqb prev "_" then None else Some []
  | c :: s' =>
      if Ascii.eqb c "_" then
        if is_digit prev then strip_underscores c s' else None
      else if Ascii.eqb prev "_" && negb (is_digit c) then None
      else option_map (cons c) (strip_underscores c s')
  end.

Definition without_underscores (s : str) : option str :=
  if char_in "_" s then strip_underscores (chr 0) s else Some s.

Fixpoint span_digits (s : str) : str * str :=
  match s with
  | c :: s' =>
      if is_digit c then let '(d, r) := span_digits s' in (c :: d, r)
      else ([], s)
  | [] => ([], [])
  end.

(** The float denoted by integer digits [ip], fraction digits [fp] and
    exponent [e], brought to the canonical digit string. *)
Definition make_float (neg : bool) (ip fp : str) (e : Z) : float :=
  let ds := ip ++ fp in
  let ds1 := lstrip_by is_zero_chr ds in
  let pt := (Z.of_nat (length ip) + e - Z.of_nat (length ds - length ds1))%Z in
  match rstrip_by is_zero_chr ds1 with
  | [] => FFin neg (py "0") 1
  | ds2 => FFin neg ds2 pt
  end.

(** C's [tolower], used to recognise [inf] and [nan]. *)
Definition c_tolower (c : ascii) : ascii :=
  if in_range 65 90 c then chr (code c + 32) else c.

(** A decimal literal after its sign: digits, an optional point and more
    digits (one digit at least), an optional exponent; nothing may follow. *)
Definition parse_decimal (neg : bool) (s : str) : option float :=
  let '(ip, r1) := span_digits s in
  let '(fp, r2) :=
    match r1 with
    | c :: r => if Ascii.eqb c "." then span_digits r else ([], r1)
    | [] => ([], r1)
    end in
  match ip ++ fp with
  | [] => None
  | _ :: _ =>
      match r2 with
      | [] => Some (make_float neg ip fp 0)
      | c :: r3 =>
          if Ascii.eqb (c_tolower c) "e" then
            let '(eneg, r4) := split_sign r3 in
            match span_digits r4 with
            | ((_ :: _) as ed, []) =>
                let e := Z.of_N (digits_val 0 ed) in
                Some (make_float neg ip fp (if eneg then - e else e)%Z)
            | _ => None
            end
          else None
      end
  end.

(** [float(s)] for a [str]; [None] is [ValueError]. *)
Definition float_of_str (s : str) : option float :=
  let s1 := strip_by is_c_space (map to_ascii_char s) in
  match without_underscores s1 with
  | None => None
  | Some s2 =>
      let '(neg, r) := split_sign s2 in
      let w := map c_tolower r in
      if str_eqb w (py "inf") || str_eqb w (py "infinity") then Some (FInf neg)
      else if str_eqb w (py "nan") then Some FNan
      else parse_decimal neg r
  end.

(** *** Values and exceptions *)

(** The values a record field holds. *)
Inductive value : Type :=
| VNone
| VBool (b : bool)
| VInt (z : Z)
| VFloat (f : float)
| VStr (s : str).

(** [str(v)], which is also what an f-string puts for [{v}]. *)
Definition str_of (v : value) : str :=
  match v with
  | VNone => py "None"
  | VBool true => py "True"
  | VBool false => py "False"
  | VInt z => str_of_int z
  | VFloat f => repr_float f
  | VStr s => s
  end.

Inductive exn_class : Type :=
| ValueError
| TypeError
| ZeroDivisionError
| KeyError
| RuntimeError
| KeyboardInterrupt
| SystemExit.

(** Whether the class derives from [Exception], so that
    [except Exception] catches it. *)
Definition is_Exception (c : exn_class) : bool :=
  match c with
  | KeyboardInterrupt | SystemExit => false
  | _ => true
  end.

Record exn : Type := mk_exn { exn_cls : exn_class; exn_msg : str }.

Inductive outcome (A : Type) : Type :=
| Ok (a : A)
| Raise (e : exn).

Arguments Ok {A} a.
Arguments Raise {A} e.

(** [s.replace(a, new)] for a one-character [a]. *)
Definition replace_char_with (a : ascii) (new : str) (s : str) : str :=
  flat_map (fun c => if Ascii.eqb c a then new else [c]) s.

End Py.

(** ** [builder/spatial.py] *)

Module SpatialConstraints.
Import Py.

(** The default of the [coordinate_system] arguments. *)
Definition icrs : str := py "icrs".

Definition circle (ra dec radius : value) (coordinate_system : str) : str :=
  py "contains(point('" ++ coordinate_system ++ py "',ra,dec),circle('"
    ++ coordinate_system ++ py "'," ++ str_of ra ++ py "," ++ str_of dec
    ++ py "," ++ str_of radius ++ py "))=1".

Definition box (ra dec width height : value) (coordinate_system : str) : str :=
  py "contains(point('" ++ coordinate_system ++ py "',ra,dec),box('"
    ++ coordinate_system ++ py "'," ++ str_of ra ++ py "," ++ str_of dec
    ++ py "," ++ str_of width ++ py "," ++ str_of height ++ py "))=1".

Definition polygon (coordinates : list (value * value)) (coordinate_system : str)
  : outcome str :=
  if (length coordinates <? 3)%nat then
    Raise (mk_exn ValueError (py "Polygon must have at least 3 vertices"))
  else
    let coord_str :=
      join (py ",")
        (map (fun '(ra, dec) => str_of ra ++ py "," ++ str_of dec) coordinates) in
    Ok (py "contains(point('" ++ coordinate_system ++ py "',ra,dec),polygon('"
          ++ coordinate_system ++ py "'," ++ coord_str ++ py "))=1").

Definition near_object (ra dec radius : value) (coordinate_system : str) : str :=
  circle ra dec radius coordinate_system.

End SpatialConstraints.

(** ** [builder/models.py]: the two enumerations the builder reads *)

Module Models.
Import Py.

Inductive TableName : Type :=
| PLANETARY_SYSTEMS | PLANETARY_SYSTEMS_COMPOSITE | TESS_TOI | MICROLENSING
| STELLAR_HOSTS | KEPLER_NAMES | KEPLER_STELLAR | KEPLER_TIME_SERIES
| K2_NAMES | K2_PLANETS_CANDIDATES | K2_TARGETS | UKIRT_TIME_SERIES
| KELT_TIME_SERIES | SUPERWASP_TIME_SERIES | ATMOSPHERIC_SPECTROSCOPY
| HWO_EXEP_STARS | TRANSITING_PLANETS | KOI_CUMULATIVE | KOI_Q1_Q6
| KOI_Q1_Q8 | KOI_Q1_Q12 | KOI_Q1_Q16 | KOI_Q1_Q17_DR24 | KOI_Q1_Q17_DR25
| KOI_Q1_Q17_DR25_SUP | TCE_Q1_Q12 | TCE_Q1_Q16 | TCE_Q1_Q17_DR24
| TCE_Q1_Q17_DR25 | KEPLER_STELLAR_Q1_Q12 | KEPLER_STELLAR_Q1_Q16
| KEPLER_STELLAR_Q1_Q17_DR24 | KEPLER_STELLAR_Q1_Q17_DR25
| KEPLER_STELLAR_DR25_SUP.

Definition TableName_value (t : TableName) : str :=
  match t with
  | PLANETARY_SYSTEMS => py "ps"
  | PLANETARY_SYSTEMS_COMPOSITE => py "pscomppars"
  | TESS_TOI => py "toi"
  | MICROLENSING => py "ml"
  | STELLAR_HOSTS => py "stellarhosts"
  | KEPLER_NAMES => py "keplernames"
  | KEPLER_STELLAR => py "keplerstellar"
  | KEPLER_TIME_SERIES => py "keplertimeseries"
  | K2_NAMES => py "k2names"
  | K2_PLANETS_CANDIDATES => py "k2pandc"
  | K2_TARGETS => py "k2targets"
  | UKIRT_TIME_SERIES => py "ukirttimeseries"
  | KELT_TIME_SERIES => py "kelttimeseries"
  | SUPERWASP_TIME_SERIES => py "superwasptimeseries"
  | ATMOSPHERIC_SPECTROSCOPY => py "spectra"
  | HWO_EXEP_STARS => py "di_stars_exep"
  | TRANSITING_PLANETS => py "TD"
  | KOI_CUMULATIVE => py "cumulative"
  | KOI_Q1_Q6 => py "q1_q6_koi"
  | KOI_Q1_Q8 => py "q1_q8_koi"
  | KOI_Q1_Q12 => py "q1_q12_koi"
  | KOI_Q1_Q16 => py "q1_q16_koi"
  | KOI_Q1_Q17_DR24 => py "q1_q17_dr24_koi"
  | KOI_Q1_Q17_DR25 => py "q1_q17_dr25_koi"
  | KOI_Q1_Q17_DR25_SUP => py "q1_q17_dr25_sup_koi"
  | TCE_Q1_Q12 => py "q1_q12_tce"
  | TCE_Q1_Q16 => py "q1_q16_tce"
  | TCE_Q1_Q17_DR24 => py "q1_q17_dr24_tce"
  | TCE_Q1_Q17_DR25 => py "q1_q17_dr25_tce"
  | KEPLER_STELLAR_Q1_Q12 => py "q1_q12_ks"
  | KEPLER_STELLAR_Q1_Q16 => py "q1_q16_ks"
  | KEPLER_STELLAR_Q1_Q17_DR24 => py "q1_q17_dr24_ks"
  | KEPLER_STELLAR_Q1_Q17_DR25 => py "q1_q17_dr25_ks"
  | KEPLER_STELLAR_DR25_SUP => py "q1_q17_dr25_sup_ks"
  end.

Inductive DiscoveryMethod : Type :=
| RADIAL_VELOCITY | TRANSIT | IMAGING | MICROLENSING_METHOD
| ECLIPSE_TIMING_VARIATIONS | ORBITAL_BRIGHTNESS_MODULATION | PULSAR_TIMING
| PULSATION_TIMING_VARIATIONS | ASTROMETRY.

Definition DiscoveryMethod_value (m : DiscoveryMethod) : str :=
  match m with
  | RADIAL_VELOCITY => py "Radial Velocity"
  | TRANSIT => py "Transit"
  | IMAGING => py "Imaging"
  | MICROLENSING_METHOD => py "Microlensing"
  | ECLIPSE_TIMING_VARIATIONS => py "Eclipse Timing Variations"
  | ORBITAL_BRIGHTNESS_MODULATION => py "Orbital Brightness Modulation"
  | PULSAR_TIMING => py "Pulsar Timing"
  | PULSATION_TIMING_VARIATIONS => py "Pulsation Timing Variations"
  | ASTROMETRY => py "Astrometry"
  end.

End Models.

(** ** [builder/query_builder.py] *)

Module QueryBuilder.
Import Py Models.

(** The attributes of a builder.  A method that returns [self] is a function
    from the builder before the call to the builder after it. *)
Record t : Type := mk {
  _select_columns : list str;
  _from_table : option str;
  _where_conditions : list str;
  _order_by_clause : option str;
  _limit_count : option Z;
  _group_by_columns : list str;
  _having_condition : option str
}.

(** [QueryBuilder()] *)
Definition init : t := mk [] None [] None None [] None.

Definition set_select (cols : list str) (self : t) : t :=
  mk cols (_from_table self) (_where_conditions self) (_order_by_clause self)
     (_limit_count self) (_group_by_columns self) (_having_condition self).

Definition set_where (conds : list str) (self : t) : t :=
  mk (_select_columns self) (_from_table self) conds (_order_by_clause self)
     (_limit_count self) (_group_by_columns self) (_having_condition self).

Definition select (columns : str + list str) (self : t) : t :=
  match columns with
  | inl s => if str_eqb s (py "*") then set_select [py "*"] self else set_select [s] self
  | inr cols => set_select cols self
  end.

Definition from_table (table : str + TableName) (self : t) : t :=
  let v := match table with inr tn => TableName_value tn | inl s => s end in
  mk (_select_columns self) (Some v) (_where_conditions self)
     (_order_by_clause self) (_limit_count self) (_group_by_columns self)
     (_having_condition self).

(** [where(condition)]; [where] is a reserved word here. *)
Definition where_ (condition : str) (self : t) : t :=
  set_where [condition] self.

Definition and_where (condition : str) (self : t) : t :=
  set_where (_where_conditions self ++ [py "AND " ++ condition]) self.

Definition or_where (condition : str) (self : t) : t :=
  set_where (_where_conditions self ++ [py "OR " ++ condition]) self.

(** [self.and_where(c) if self._where_conditions else self.where(c)] *)
Definition and_where_or_where (condition : str) (self : t) : t :=
  match _where_conditions self with
  | _ :: _ => and_where condition self
  | [] => where_ condition self
  end.

Definition where_between (column : str) (min_value max_value : value) (self : t) : t :=
  and_where_or_where
    (column ++ py " between " ++ str_of min_value ++ py " and " ++ str_of max_value)
    self.

Definition where_in (column : str) (values : list value) (self : t) : t :=
  let formatted_values :=
    map (fun v => match v with
                  | VStr s => py "'" ++ s ++ py "'"
                  | _ => str_of v
                  end) values in
  and_where_or_where
    (column ++ py " in (" ++ join (py ",") formatted_values ++ py ")") self.

Definition where_like (column pattern : str) (case_insensitive : bool) (self : t) : t :=
  and_where_or_where
    (if case_insensitive
     then py "upper(" ++ column ++ py ") like upper('" ++ pattern ++ py "')"
     else column ++ py " like '" ++ pattern ++ py "'")
    self.

Definition where_confirmed (self : t) : t :=
  where_like (py "soltype") (py "%CONF%") true self.

Definition where_candidates (self : t) : t :=
  where_like (py "soltype") (py "%CAND%") true self.

Definition where_discovery_method (method : str + DiscoveryMethod) (self : t) : t :=
  let method_str :=
    match method with inr m => DiscoveryMethod_value m | inl s => s end in
  and_where_or_where (py "discoverymethod = '" ++ method_str ++ py "'") self.

Definition where_default_flag (self : t) : t :=
  and_where_or_where (py "default_flag=1") self.

Definition where_has_mass (self : t) : t :=
  and_where_or_where (py "pl_masse > 0") self.

Definition where_has_radius (self : t) : t :=
  and_where_or_where (py "pl_rade > 0") self.

Definition where_earth_sized (max_radius : value) (self : t) : t :=
  and_where_or_where (py "pl_rade <= " ++ str_of max_radius) self.

Definition where_spatial_circle (ra dec radius : value) (self : t) : t :=
  and_where_or_where
    (SpatialConstraints.circle ra dec radius SpatialConstraints.icrs) self.

Definition where_spatial_box (ra dec width height : value) (self : t) : t :=
  and_where_or_where
    (SpatialConstraints.box ra dec width height SpatialConstraints.icrs) self.

Definition order_by (column : str) (ascending : bool) (self : t) : t :=
  let direction := if ascending then py "ASC" else py "DESC" in
  mk (_select_columns self) (_from_table self) (_where_conditions self)
     (Some (py "ORDER BY " ++ column ++ py " " ++ direction))
     (_limit_count self) (_group_by_columns self) (_having_condition self).

Definition limit (count : Z) (self : t) : t :=
  mk (_select_columns self) (_from_table self) (_where_conditions self)
     (_order_by_clause self) (Some count) (_group_by_columns self)
     (_having_condition self).

Definition group_by (columns : str + list str) (self : t) : t :=
  mk (_select_columns self) (_from_table self) (_where_conditions self)
     (_order_by_clause self) (_limit_count self)
     (match columns with inl s => [s] | inr cols => cols end)
     (_having_condition self).

Definition having (condition : str) (self : t) : t :=
  mk (_select_columns self) (_from_table self) (_where_conditions self)
     (_order_by_clause self) (_limit_count self) (_group_by_columns self)
     (Some condition).

Definition count (column : str) (self : t) : t :=
  set_select [py "count(" ++ column ++ py ") as count"] self.

Definition distinct (columns : str + list str) (self : t) : t :=
  let columns := match columns with inl s => [s] | inr cols => cols end in
  set_select
    (match columns with
     | [] => []
     | col :: rest => (py "distinct(" ++ col ++ py ")") :: rest
     end)
    self.

(** Truth value of an optional string: [None] and [''] are false. *)
Definition truthy_str (o : option str) : bool :=
  match o with
  | Some (_ :: _) => true
  | _ => false
  end.

(** The condition list as it stands after [WHERE ]: the first stored
    element without a leading [AND ] or [OR ], the others as stored. *)
Definition where_clause (first_condition : str) (rest : list str) : str :=
  let first_condition :=
    if startswith first_condition (py "AND ") then skipn 4 first_condition
    else if startswith first_condition (py "OR ") then skipn 3 first_condition
    else first_condition in
  if (1 <? length (first_condition :: rest))%nat
  then first_condition ++ py " " ++ join (py " ") rest
  else first_condition.

(** The list [query_parts] that [build] joins. *)
Definition query_parts (self : t) (from : str) : list str :=
  let select_str := join (py ",") (_select_columns self) in
  [match _limit_count self with
   | Some n =>
       if (n =? 0)%Z then py "SELECT " ++ select_str
       else py "SELECT TOP " ++ str_of_int n ++ py " " ++ select_str
   | None => py "SELECT " ++ select_str
   end]
  ++ [py "FROM " ++ from]
  ++ match _where_conditions self with
     | [] => []
     | first_condition :: rest => [py "WHERE " ++ where_clause first_condition rest]
     end
  ++ match _group_by_columns self with
     | [] => []
     | cols => [py "GROUP BY " ++ join (py ",") cols]
     end
  ++ match _having_condition self with
     | Some ((_ :: _) as c) => [py "HAVING " ++ c]
     | _ => []
     end
  ++ match _order_by_clause self with
     | Some ((_ :: _) as c) => [c]
     | _ => []
     end.

(** [build()]: the string returned or the error raised, and the builder
    after the call. *)
Definition build (self : t) : outcome str * t :=
  (match _select_columns self with
   | [] => Raise (mk_exn ValueError (py "SELECT columns must be specified"))
   | _ :: _ =>
       match _from_table self with
       | Some ((_ :: _) as from) => Ok (join (py " ") (query_parts self from))
       | _ => Raise (mk_exn ValueError (py "FROM table must be specified"))
       end
   end,
   self).

Definition to_url_encoded (self : t) : outcome str * t :=
  let '(r, self') := build self in
  (match r with
   | Ok query => Ok (replace_char " " "+" query)
   | Raise e => Raise e
   end,
   self').

End QueryBuilder.

(** ** [builder/utils.py] *)

Module Utils.
Import Py.

(** [s.encode('utf-8')] on code points below 256. *)
Definition utf8_encode (s : str) : list ascii :=
  flat_map (fun c =>
              if (code c <? 128)%N then [c]
              else [chr (192 + code c / 64); chr (128 + code c mod 64)]) s.

Definition hex_digit (n : N) : ascii :=
  if (n <? 10)%N then chr (48 + n) else chr (55 + n).

(** The bytes [urllib.parse.quote] never escapes: letters, digits and
    [_.-~]. *)
Definition always_safe (b : ascii) : bool :=
  in_range 48 57 b || in_range 65 90 b || in_range 97 122 b
  || char_in b (py "_.-~").

(** [urllib.parse.quote(s, safe=safe)] *)
Definition quote (s safe : str) : str :=
  flat_map (fun b =>
              if always_safe b || ((code b <? 128)%N && char_in b safe) then [b]
              else ["%"%char; hex_digit (code b / 16); hex_digit (code b mod 16)])
           (utf8_encode s).

Definition url_encode_query (query : str) : str :=
  let query := replace_char " " "+" query in
  quote query (py "+,=").

(** [build_constraint_list], on the tuple of its arguments. *)
Definition build_constraint_list (conditions : list str) : str :=
  let valid_conditions :=
    map strip
      (filter (fun cond =>
                 match cond with
                 | [] => false
                 | _ :: _ => match strip cond with [] => false | _ :: _ => true end
                 end) conditions) in
  match valid_conditions with
  | [] => []
  | _ :: _ => join (py " AND ") valid_conditions
  end.

(** [escape_sql_string(value)] *)
Definition escape_sql_string (value : str) : str :=
  replace_char_with "'" (py "''") value.

Definition forbidden_chars : list str :=
  [py ";"; py "--"; py "/*"; py "*/"; py "drop"; py "delete"; py "update";
   py "insert"].

(** [validate_table_name(table_name, valid_tables)] *)
Definition validate_table_name (table_name : str) (valid_tables : option (list str))
  : bool :=
  match table_name with
  | [] => false
  | _ :: _ =>
      let table_lower := lower table_name in
      if existsb (fun char => contains table_lower char) forbidden_chars then false
      else
        match valid_tables with
        | Some ((_ :: _) as tables) => str_in table_name tables
        | _ => true
        end
  end.

End Utils.

(** ** [data_bindings/transforms.py] *)

Module Transforms.
Import Py.

(** A rule.  [transform_func] and [condition] are arbitrary callables: they
    may raise. *)
Record TransformRule : Type := mk_rule {
  column : str;
  transform_func : value -> outcome value;
  condition : option (value -> outcome bool);
  description : str
}.

(** A record is a [dict]: its items in insertion order.  Assigning to a key
    that is present replaces the value where the key stands. *)
Definition dict := list (str * value).

Fixpoint dict_set (k : str) (v : value) (d : dict) : dict :=
  match d with
  | [] => [(k, v)]
  | (k', v') :: d' =>
      if str_eqb k' k then (k', v) :: d' else (k', v') :: dict_set k v d'
  end.

Fixpoint dict_get (k : str) (d : dict) : option value :=
  match d with
  | [] => None
  | (k', v') :: d' => if str_eqb k' k then Some v' else dict_get k d'
  end.

(** [_normalize_column_name(name)] *)
Definition _normalize_column_name (name : value) : str :=
  match name with
  | VStr s =>
      let normalized := sub_nonword (lower s) in
      let normalized := sub_underscores normalized in
      strip_char "_" normalized
  | _ => str_of name
  end.

Definition null_values : list str :=
  [py ""; py "null"; py "NULL"; py "nan"; py "NaN"; py "N/A"; py "n/a";
   py "-"; py "--"].

(** [_handle_nulls(value)] *)
Definition _handle_nulls (v : value) : value :=
  match v with
  | VNone => VNone
  | VStr s => if str_in (strip s) null_values then VNone else v
  | _ => v
  end.

(** [_is_numeric_string(value)] *)
Definition _is_numeric_string (s : str) : bool :=
  match float_of_str s with
  | Some _ => true
  | None => false
  end.

(** [_convert_numeric(value)] *)
Definition _convert_numeric (v : value) : value :=
  match v with
  | VStr s =>
      let s := strip s in
      match s with
      | [] => VNone
      | _ :: _ =>
          if negb (char_in "." s) && negb (char_in "e" (lower s)) then
            match int_of_str s with
            | Some z => VInt z
            | None => VStr s
            end
          else
            match float_of_str s with
            | Some f => VFloat f
            | None => VStr s
            end
      end
  | _ => v
  end.

(** The function [map_categories] of [add_categorical_mapping], for a
    mapping with string keys ([Dict[str, Any]]), its items in insertion
    order: the first key equal to the value up to case decides; failing
    that, [mapping.get(value, value)], which no string key answers for a
    value that is not a string. *)
Definition map_categories (mapping : dict) (v : value) : value :=
  match v with
  | VNone => VNone
  | VStr s =>
      match find (fun kv => str_eqb (lower s) (lower (fst kv))) mapping with
      | Some (_, mapped_value) => mapped_value
      | None =>
          match dict_get s mapping with
          | Some mapped_value => mapped_value
          | None => v
          end
      end
  | _ => v
  end.

(** The transformer's state is its rule list. *)
Definition DataTransformer := list TransformRule.

Definition add_rule (column : str) (transform_func : value -> outcome value)
    (condition : option (value -> outcome bool)) (description : str)
    (self : DataTransformer) : DataTransformer :=
  self ++ [mk_rule column transform_func condition description].

Definition _add_default_rules (self : DataTransformer) : DataTransformer :=
  let self :=
    add_rule (py "*") (fun v => Ok (VStr (_normalize_column_name v))) None
      (py "Normalize column names to lowercase with underscores") self in
  let self :=
    add_rule (py "*") (fun v => Ok (_handle_nulls v)) None
      (py "Convert various null representations to None") self in
  add_rule (py "*") (fun v => Ok (_convert_numeric v))
    (Some (fun x => Ok (match x with
                        | VStr s => _is_numeric_string s
                        | _ => false
                        end)))
    (py "Convert numeric strings to numbers") self.

(** [DataTransformer()] *)
Definition init : DataTransformer := _add_default_rules [].

Definition add_categorical_mapping (column : str) (mapping : dict)
    (self : DataTransformer) : DataTransformer :=
  add_rule column (fun v => Ok (map_categories mapping v)) None
    (py "Map categorical values in " ++ column) self.

(** A computation that prints: its outcome and the lines it printed. *)
Definition printing (A : Type) : Type := outcome A * list str.

Definition ret {A : Type} (a : A) : printing A := (Ok a, []).

Definition bind {A B : Type} (m : printing A) (k : A -> printing B) : printing B :=
  match m with
  | (Ok a, out) => let '(r, out') := k a in (r, out ++ out')
  | (Raise e, out) => (Raise e, out)
  end.

(** The body of the loop over the rules, for one rule: the new
    [transformed_value]. *)
Definition apply_rule (key : str) (rule : TransformRule) (transformed_value : value)
  : printing value :=
  if str_eqb (column rule) (py "*") || str_eqb (column rule) key then
    bind
      match condition rule with
      | None => ret true
      | Some c => (c transformed_value, [])
      end
      (fun go =>
         if go : bool then
           match transform_func rule transformed_value with
           | Ok v => ret v
           | Raise e =>
               if is_Exception (exn_cls e) then
                 (Ok transformed_value,
                  [py "Transform error for " ++ key ++ py ": " ++ exn_msg e])
               else (Raise e, [])
           end
         else ret transformed_value)
  else ret transformed_value.

Fixpoint apply_rules (key : str) (rules : list TransformRule) (transformed_value : value)
  : printing value :=
  match rules with
  | [] => ret transformed_value
  | rule :: rules' =>
      bind (apply_rule key rule transformed_value) (apply_rules key rules')
  end.

(** The loop over [record.items()], continuing from [transformed]. *)
Fixpoint transform_items (self : DataTransformer) (items : list (str * value))
    (transformed : dict) : printing dict :=
  match items with
  | [] => ret transformed
  | (original_key, v) :: items' =>
      let key := _normalize_column_name (VStr original_key) in
      bind (apply_rules key self v)
        (fun transformed_value =>
           transform_items self items' (dict_set key transformed_value transformed))
  end.

Definition transform_record (self : DataTransformer) (record : dict) : printing dict :=
  transform_items self record [].

Fixpoint transform_batch (self : DataTransformer) (records : list dict)
  : printing (list dict) :=
  match records with
  | [] => ret []
  | record :: records' =>
      bind (transform_record self record)
        (fun r => bind (transform_batch self records') (fun rs => ret (r :: rs)))
  end.

End Transforms.

(** ** [data_bindings/sources.py]: batching *)

Module Sources.
Import Py Transforms.

(** The attributes of a source that [_batch_records] reads.  The transformer
    is always set ([transformer or NASADataTransformer()]) and, being an
    object, always true. *)
Record BaseNASASource : Type := mk_source {
  transformer : DataTransformer;
  batch_size : Z
}.

(** The indices [i, i + step, ...] below [stop], at most [fuel] of them. *)
Fixpoint range_from (fuel i stop step : nat) : list nat :=
  match fuel with
  | O => []
  | S fuel' => if (i <? stop)%nat then i :: range_from fuel' (i + step) stop step else []
  end.

(** [range(0, stop, step)] for [stop >= 0]: a zero step is an error, a
    negative step gives nothing. *)
Definition range0 (stop : nat) (step : Z) : outcome (list nat) :=
  if (step =? 0)%Z then
    Raise (mk_exn ValueError (py "range() arg 3 must not be zero"))
  else if (step <? 0)%Z then Ok []
  else Ok (range_from stop 0 stop (Z.to_nat step)).

(** What a generator did when run to its end: the values it yielded, the
    exception that ended it, if any, and the lines printed. *)
Definition generated (A : Type) : Type := list A * option exn * list str.

(** The loop of [_batch_records] over the indices [idx]. *)
Fixpoint yield_batches (self : BaseNASASource) (records : list dict) (idx : list nat)
  : generated (list dict) :=
  match idx with
  | [] => ([], None, [])
  | i :: idx' =>
      let batch := firstn (Z.to_nat (batch_size self)) (skipn i records) in
      match transform_batch (transformer self) batch with
      | (Ok batch', out) =>
          let '(ys, e, out') := yield_batches self records idx' in
          (batch' :: ys, e, out ++ out')
      | (Raise e, out) => ([], Some e, out)
      end
  end.

Definition _batch_records (self : BaseNASASource) (records : list dict)
  : generated (list dict) :=
  match range0 (length records) (batch_size self) with
  | Raise e => ([], Some e, [])
  | Ok idx => yield_batches self records idx
  end.

End Sources.

(** ** Notions the statements and proofs use *)

Module Notions.
Import Py.

(** No two underscores in a row. *)
Fixpoint no_double (s : str) : Prop :=
  match s with
  | c :: (d :: _) as s' => (Ascii.eqb c "_" && Ascii.eqb d "_" = false) /\ no_double s'
  | _ => True
  end.

(** A character that [sub_nonword] and [lower] leave alone. *)
Definition settled (c : ascii) : Prop := is_word c = true /\ lower_char c = c.

(** The calls of the builder that add a condition. *)
Inductive condition_call : Type :=
| Where (condition : str)
| AndWhere (condition : str)
| OrWhere (condition : str)
| WhereBetween (column : str) (min_value max_value : value)
| WhereIn (column : str) (values : list value)
| WhereLike (column pattern : str) (case_insensitive : bool)
| WhereConfirmed
| WhereCandidates
| WhereDiscoveryMethod (method : str + Models.DiscoveryMethod)
| WhereDefaultFlag
| WhereHasMass
| WhereHasRadius
| WhereEarthSized (max_radius : value)
| WhereSpatialCircle (ra dec radius : value)
| WhereSpatialBox (ra dec width height : value).

Definition call (c : condition_call) (self : QueryBuilder.t) : QueryBuilder.t :=
  match c with
  | Where condition => QueryBuilder.where_ condition self
  | AndWhere condition => QueryBuilder.and_where condition self
  | OrWhere condition => QueryBuilder.or_where condition self
  | WhereBetween column lo hi => QueryBuilder.where_between column lo hi self
  | WhereIn column values => QueryBuilder.where_in column values self
  | WhereLike column pattern ci => QueryBuilder.where_like column pattern ci self
  | WhereConfirmed => QueryBuilder.where_confirmed self
  | WhereCandidates => QueryBuilder.where_candidates self
  | WhereDiscoveryMethod m => QueryBuilder.where_discovery_method m self
  | WhereDefaultFlag => QueryBuilder.where_default_flag self
  | WhereHasMass => QueryBuilder.where_has_mass self
  | WhereHasRadius => QueryBuilder.where_has_radius self
  | WhereEarthSized r => QueryBuilder.where_earth_sized r self
  | WhereSpatialCircle ra dec radius => QueryBuilder.where_spatial_circle ra dec radius self
  | WhereSpatialBox ra dec w h => QueryBuilder.where_spatial_box ra dec w h self
  end.

(** The calls of a chain, leftmost first. *)
Definition calls (cs : list condition_call) (self : QueryBuilder.t) : QueryBuilder.t :=
  fold_left (fun b c => call c b) cs self.

(** The characters of the decimal renderings of numbers. *)
Definition plain (c : ascii) : bool :=
  is_digit c || char_in c (py "-+.e").

(** What the three default rules make of a value, rule by rule. *)
Definition default_result (v : value) : value :=
  let v1 := VStr (Transforms._normalize_column_name v) in
  let v2 := Transforms._handle_nulls v1 in
  match v2 with
  | VStr s => if Transforms._is_numeric_string s then Transforms._convert_numeric v2 else v2
  | _ => v2
  end.

(** The rule applies to the field [key] and its condition, if any, holds of
    [v]. *)
Definition fires (key : str) (rule : Transforms.TransformRule) (v : value) : Prop :=
  (Transforms.column rule = py "*" \/ Transforms.column rule = key)
  /\ match Transforms.condition rule with
     | None => True
     | Some c => c v = Ok true
     end.

(** The rule's condition, if any, never raises. *)
Definition condition_total (rule : Transforms.TransformRule) : Prop :=
  match Transforms.condition rule with
  | None => True
  | Some c => forall v, exists b, c v = Ok b
  end.

(** What the rule's transform raises derives from [Exception]. *)
Definition raises_errors_only (rule : Transforms.TransformRule) : Prop :=
  forall v e, Transforms.transform_func rule v = Raise e ->
              is_Exception (exn_cls e) = true.

Definition tame (rule : Transforms.TransformRule) : Prop :=
  condition_total rule /\ raises_errors_only rule.

(** The line printed when a transform fails. *)
Definition diagnostic (key : str) (e : exn) : str :=
  py "Transform error for " ++ key ++ py ": " ++ exn_msg e.

(** The record built from the fields' keys and their final values, in
    order. *)
Definition assemble (record : Transforms.dict) (vals : list value) : Transforms.dict :=
  fold_left
    (fun d kv => Transforms.dict_set
                   (Transforms._normalize_column_name (VStr (fst (fst kv)))) (snd kv) d)
    (combine record vals) [].

(** A rule whose transform always fails with a [ValueError]. *)
Definition failing_rule (column : str) : Transforms.TransformRule :=
  Transforms.mk_rule column
    (fun _ => Raise (mk_exn ValueError (py "bad value"))) None (py "always fails").

(** A rule whose condition itself fails. *)
Definition failing_condition_rule : Transforms.TransformRule :=
  Transforms.mk_rule (py "*") (fun v => Ok v)
    (Some (fun _ => Raise (mk_exn TypeError (py "bad condition"))))
    (py "condition fails").

(** A rule whose transform raises [SystemExit]. *)
Definition exiting_rule : Transforms.TransformRule :=
  Transforms.mk_rule (py "*") (fun _ => Raise (mk_exn SystemExit (py "1")))
    None (py "exits").

(** The condition a convenience call hands to [where] or [and_where];
    [None] for the three raw calls. *)
Definition condition_text (c : condition_call) : option str :=
  match c with
  | Where _ | AndWhere _ | OrWhere _ => None
  | WhereBetween column lo hi =>
      Some (column ++ py " between " ++ str_of lo ++ py " and " ++ str_of hi)
  | WhereIn column values =>
      Some (column ++ py " in ("
              ++ join (py ",")
                   (map (fun v => match v with
                                  | VStr s => py "'" ++ s ++ py "'"
                                  | _ => str_of v
                                  end) values)
              ++ py ")")
  | WhereLike column pattern true =>
      Some (py "upper(" ++ column ++ py ") like upper('" ++ pattern ++ py "')")
  | WhereLike column pattern false =>
      Some (column ++ py " like '" ++ pattern ++ py "'")
  | WhereConfirmed => Some (py "upper(soltype) like upper('%CONF%')")
  | WhereCandidates => Some (py "upper(soltype) like upper('%CAND%')")
  | WhereDiscoveryMethod (inl s) => Some (py "discoverymethod = '" ++ s ++ py "'")
  | WhereDiscoveryMethod (inr m) =>
      Some (py "discoverymethod = '" ++ Models.DiscoveryMethod_value m ++ py "'")
  | WhereDefaultFlag => Some (py "default_flag=1")
  | WhereHasMass => Some (py "pl_masse > 0")
  | WhereHasRadius => Some (py "pl_rade > 0")
  | WhereEarthSized r => Some (py "pl_rade <= " ++ str_of r)
  | WhereSpatialCircle ra dec radius =>
      Some (SpatialConstraints.circle ra dec radius SpatialConstraints.icrs)
  | WhereSpatialBox ra dec w h =>
      Some (SpatialConstraints.box ra dec w h SpatialConstraints.icrs)
  end.

(** The condition carries no [AND ] or [OR ] prefix of its own. *)
Definition unprefixed (c : str) : Prop :=
  startswith c (py "AND ") = false /\ startswith c (py "OR ") = false.

(** The characters [url_encode_query] may put out: letters, digits, and
    [_.-~+,=%]. *)
Definition url_char (c : ascii) : bool :=
  Utils.always_safe c || char_in c (py "+,=%").

(** The keys of a record. *)
Definition keys (d : Transforms.dict) : list str := map fst d.

(** A string is a canonical field name. *)
Definition canonical (s : str) : Prop :=
  Transforms._normalize_column_name (VStr s) = s.

(** The mapping that [NASADataTransformer._add_nasa_specific_rules] hands
    to [add_categorical_mapping] for the column [discoverymethod]. *)
Definition discovery_method_mapping : Transforms.dict :=
  [(py "Transit", VStr (py "transit"));
   (py "Radial Velocity", VStr (py "radial_velocity"));
   (py "Imaging", VStr (py "direct_imaging"));
   (py "Microlensing", VStr (py "microlensing"));
   (py "Eclipse Timing Variations", VStr (py "eclipse_timing"));
   (py "Orbital Brightness Modulation", VStr (py "orbital_brightness"))].

(** A key, lowered, is made of word characters only. *)
Definition word_key (kv : str * value) : bool := forallb is_word (lower (fst kv)).

(** A rule that would set a field to null, registered for one column. *)
Definition nulling_rule (column : str) : Transforms.TransformRule :=
  Transforms.mk_rule column (fun _ => Ok VNone) None (py "set to null").

End Notions.

(** * Properties *)

Import Py Notions.

(** Split a conjunction into its parts, and nothing else. *)
Ltac conjs := repeat match goal with |- _ /\ _ => split end.

(** Two finite floats are equal when their point positions are. *)
Ltac fin_eq :=
  match goal with
  | |- Some (FFin ?n ?d ?x) = Some (FFin ?n ?d ?y) =>
      replace x with y; [reflexivity|]
  end.

(** ** Strings *)

Lemma str_eqb_eq (a b : str) : str_eqb a b = true <-> a = b.
Proof.
  revert b; induction a as [|x a IH]; intros [|y b]; simpl; split; intro H;
    try reflexivity; try discriminate.
  - apply andb_true_iff in H as [Hxy Hab].
    apply Ascii.eqb_eq in Hxy. apply IH in Hab. now subst.
  - injection H as -> ->. rewrite Ascii.eqb_refl. simpl. now apply IH.
Qed.

Lemma str_eqb_refl (a : str) : str_eqb a a = true.
Proof. now apply str_eqb_eq. Qed.

Lemma lstrip_by_In (p : ascii -> bool) (s : str) (c : ascii) :
  In c (lstrip_by p s) -> In c s.
Proof.
  induction s as [|d s IH]; simpl; [easy|].
  destruct (p d); [right; auto | easy].
Qed.

Lemma rstrip_by_In (p : ascii -> bool) (s : str) (c : ascii) :
  In c (rstrip_by p s) -> In c s.
Proof.
  unfold rstrip_by. intro H. apply in_rev in H. apply lstrip_by_In in H.
  now apply in_rev.
Qed.

(** What [lstrip] leaves is a suffix, what [rstrip] leaves a prefix. *)
Lemma lstrip_by_suffix (p : ascii -> bool) (s : str) :
  exists a, s = a ++ lstrip_by p s.
Proof.
  induction s as [|d s [a IH]]; simpl.
  - now exists [].
  - destruct (p d).
    + exists (d :: a). simpl. now f_equal.
    + now exists [].
Qed.

Lemma rstrip_by_prefix (p : ascii -> bool) (s : str) :
  exists b, s = rstrip_by p s ++ b.
Proof.
  unfold rstrip_by. destruct (lstrip_by_suffix p (rev s)) as [a Ha].
  exists (rev a). rewrite <- rev_app_distr, <- Ha. now rewrite rev_involutive.
Qed.

Lemma lstrip_by_fix (p : ascii -> bool) (s : str) :
  match s with [] => True | c :: _ => p c = false end -> lstrip_by p s = s.
Proof. destruct s as [|c s]; simpl; [easy|]. now intros ->. Qed.

Lemma lstrip_by_head (p : ascii -> bool) (s : str) :
  match lstrip_by p s with [] => True | c :: _ => p c = false end.
Proof.
  induction s as [|d s IH]; simpl; [easy|].
  destruct (p d) eqn:E; [exact IH | exact E].
Qed.

Lemma lstrip_by_idem (p : ascii -> bool) (s : str) :
  lstrip_by p (lstrip_by p s) = lstrip_by p s.
Proof. apply lstrip_by_fix, lstrip_by_head. Qed.

Lemma rstrip_by_idem (p : ascii -> bool) (s : str) :
  rstrip_by p (rstrip_by p s) = rstrip_by p s.
Proof.
  unfold rstrip_by. now rewrite rev_involutive, lstrip_by_idem.
Qed.

(** Stripping on the right keeps a first character that stripping on the
    left would keep. *)
Lemma rstrip_by_head (p : ascii -> bool) (s : str) :
  match s with [] => True | c :: _ => p c = false end ->
  match rstrip_by p s with [] => True | c :: _ => p c = false end.
Proof.
  intro H. destruct (rstrip_by_prefix p s) as [b Hb].
  destruct (rstrip_by p s) as [|c r]; [easy|].
  rewrite Hb in H. exact H.
Qed.

Lemma strip_by_idem (p : ascii -> bool) (s : str) :
  strip_by p (strip_by p s) = strip_by p s.
Proof.
  unfold strip_by.
  rewrite (lstrip_by_fix p (rstrip_by p (lstrip_by p s))).
  - apply rstrip_by_idem.
  - apply rstrip_by_head, lstrip_by_head.
Qed.

Lemma strip_by_In (p : ascii -> bool) (s : str) (c : ascii) :
  In c (strip_by p s) -> In c s.
Proof. intro H. now apply lstrip_by_In with p, rstrip_by_In with p. Qed.

Lemma strip_by_infix (p : ascii -> bool) (s : str) :
  exists a b, s = a ++ strip_by p s ++ b.
Proof.
  unfold strip_by. destruct (lstrip_by_suffix p s) as [a Ha].
  destruct (rstrip_by_prefix p (lstrip_by p s)) as [b Hb].
  exists a, b. now rewrite <- Hb.
Qed.

(** ** Canonical field names *)

Lemma no_double_app_r (a b : str) : no_double (a ++ b) -> no_double b.
Proof.
  induction a as [|c a IH]; simpl; [easy|].
  destruct (a ++ b) eqn:E; [|intros [_ H]; auto].
  destruct a; [simpl in E; now subst | discriminate].
Qed.

Lemma no_double_app_l (a b : str) : no_double (a ++ b) -> no_double a.
Proof.
  induction a as [|c a IH]; simpl; [easy|].
  destruct a as [|d a]; [easy|]. simpl. intros [H1 H2]. split; [exact H1|].
  apply IH. exact H2.
Qed.

Lemma sub_underscores_head (s : str) :
  hd_error (sub_underscores s) = hd_error s.
Proof.
  induction s as [|c s IH]; simpl; [easy|].
  destruct (Ascii.eqb c "_") eqn:Ec; [|easy].
  destruct s as [|d s]; [easy|].
  destruct (Ascii.eqb d "_") eqn:Ed; [|easy].
  rewrite IH. simpl. apply Ascii.eqb_eq in Ec, Ed. now subst.
Qed.

Lemma sub_underscores_no_double (s : str) : no_double (sub_underscores s).
Proof.
  induction s as [|c s IH]; simpl; [easy|].
  assert (Hcons : forall s', hd_error s' = hd_error s ->
            (Ascii.eqb c "_" && match hd_error s with
                                | Some d => Ascii.eqb d "_"
                                | None => false
                                end = false) ->
            no_double s' -> no_double (c :: s')).
  { intros [|d' s'] Hh Hc Hn; simpl; [easy|].
    simpl in Hh. rewrite <- Hh in Hc. now split. }
  destruct (Ascii.eqb c "_") eqn:Ec.
  - destruct s as [|d s]; [easy|].
    destruct (Ascii.eqb d "_") eqn:Ed; [exact IH|].
    apply Hcons; [apply sub_underscores_head | simpl; now rewrite Ed | exact IH].
  - apply Hcons; [apply sub_underscores_head | easy | exact IH].
Qed.

Lemma sub_underscores_In (s : str) (c : ascii) :
  In c (sub_underscores s) -> In c s.
Proof.
  induction s as [|d s IH]; simpl; [easy|].
  destruct (Ascii.eqb d "_").
  - destruct s as [|e s]; [easy|].
    destruct (Ascii.eqb e "_"); [right; auto|].
    intros [H|H]; [now left | right; auto].
  - intros [H|H]; [now left | right; auto].
Qed.

Lemma sub_underscores_fix (s : str) : no_double s -> sub_underscores s = s.
Proof.
  induction s as [|c s IH]; [easy|].
  intro H. simpl.
  destruct s as [|d s].
  - now destruct (Ascii.eqb c "_").
  - destruct H as [H1 H2]. specialize (IH H2).
    destruct (Ascii.eqb c "_"); simpl in H1.
    + rewrite H1. now rewrite IH.
    + now rewrite IH.
Qed.

Lemma settled_sub_nonword_lower (c : ascii) :
  settled (if is_word (lower_char c) then lower_char c else "_"%char).
Proof.
  destruct c as [[] [] [] [] [] [] [] []]; split; reflexivity.
Qed.

Lemma sub_nonword_lower_fix (s : str) :
  Forall settled s -> sub_nonword (lower s) = s.
Proof.
  induction 1 as [|c s [Hw Hl] _ IH]; [easy|].
  unfold sub_nonword, lower in *. simpl. rewrite Hl, Hw. now f_equal.
Qed.

Lemma sub_nonword_lower_settled (s : str) :
  Forall settled (sub_nonword (lower s)).
Proof.
  induction s as [|c s IH]; constructor; [|exact IH].
  apply settled_sub_nonword_lower.
Qed.

(** A canonical name is a fixed point of canonicalisation. *)
Lemma normalize_fix (r : str) :
  Forall settled r -> no_double r -> strip_char "_" r = r ->
  Transforms._normalize_column_name (VStr r) = r.
Proof.
  intros Hs Hn Hst. unfold Transforms._normalize_column_name.
  rewrite sub_nonword_lower_fix by exact Hs.
  rewrite sub_underscores_fix by exact Hn. exact Hst.
Qed.

(** C10. Canonicalising a field name is idempotent: for every string,
    canonicalising the canonical name returns it unchanged; and
    ["PL_NAME"] and ["pl__Name!"] both canonicalise to ["pl_name"]. *)
Theorem normalize_column_name_idempotent :
  (forall s : str,
      Transforms._normalize_column_name
        (VStr (Transforms._normalize_column_name (VStr s)))
      = Transforms._normalize_column_name (VStr s))
  /\ Transforms._normalize_column_name (VStr (py "PL_NAME")) = py "pl_name"
  /\ Transforms._normalize_column_name (VStr (py "pl__Name!")) = py "pl_name".
Proof.
  split; [|split; reflexivity].
  intro s. apply normalize_fix.
  - apply Forall_forall. intros c Hc.
    unfold Transforms._normalize_column_name, strip_char in Hc.
    apply strip_by_In, sub_underscores_In in Hc.
    revert c Hc. apply Forall_forall, sub_nonword_lower_settled.
  - unfold Transforms._normalize_column_name, strip_char.
    destruct (strip_by_infix (Ascii.eqb "_")
                (sub_underscores (sub_nonword (lower s)))) as (a & b & E).
    pose proof (sub_underscores_no_double (sub_nonword (lower s))) as H.
    rewrite E in H. now apply no_double_app_r, no_double_app_l in H.
  - unfold Transforms._normalize_column_name, strip_char. apply strip_by_idem.
Qed.

(** Every character of a canonical name is a lower-case word character. *)
Lemma normalize_settled (s : str) (c : ascii) :
  In c (Transforms._normalize_column_name (VStr s)) -> settled c.
Proof.
  unfold Transforms._normalize_column_name, strip_char. intro Hc.
  apply strip_by_In, sub_underscores_In in Hc.
  revert c Hc. apply Forall_forall, sub_nonword_lower_settled.
Qed.

(** A canonical name is none of a list of strings that each hold a character
    which is not a lower-case word character. *)
Lemma normalize_not_in (s : str) (xs : list str) :
  forallb (fun x => negb (forallb (fun c => is_word c && Ascii.eqb (lower_char c) c) x))
    xs = true ->
  str_in (Transforms._normalize_column_name (VStr s)) xs = false.
Proof.
  intro Hxs. unfold str_in.
  destruct (existsb (str_eqb (Transforms._normalize_column_name (VStr s))) xs) eqn:E;
    [|reflexivity].
  apply existsb_exists in E as (x & Hx & Ex). apply str_eqb_eq in Ex.
  rewrite forallb_forall in Hxs. specialize (Hxs x Hx).
  apply negb_true_iff in Hxs.
  assert (H : forallb (fun c => is_word c && Ascii.eqb (lower_char c) c) x = true).
  { apply forallb_forall. intros c Hc. rewrite <- Ex in Hc.
    destruct (normalize_settled s c Hc) as [Hw Hl].
    rewrite Hw, Hl. apply Ascii.eqb_refl. }
  congruence.
Qed.

Lemma normalize_no_char (s : str) (c : ascii) :
  is_word c = false -> char_in c (Transforms._normalize_column_name (VStr s)) = false.
Proof.
  intro Hc. unfold char_in.
  destruct (existsb (Ascii.eqb c) (Transforms._normalize_column_name (VStr s))) eqn:E;
    [|reflexivity].
  apply existsb_exists in E as (d & Hd & Ed). apply Ascii.eqb_eq in Ed. subst d.
  destruct (normalize_settled s c Hd) as [Hw _]. congruence.
Qed.

(** ** The query builder *)

Lemma startswith_app (p s : str) : startswith (p ++ s) p = true.
Proof.
  induction p as [|c p IH]; simpl; [easy|]. now rewrite Ascii.eqb_refl.
Qed.

Lemma contains_infix (a s b : str) : contains (a ++ s ++ b) s = true.
Proof.
  induction a as [|c a IH].
  - assert (H : forall u, startswith u s = true -> contains u s = true).
    { intros [|d u] Hu.
      - now destruct s.
      - cbn [contains]. now rewrite Hu. }
    apply H. exact (startswith_app s b).
  - simpl. rewrite IH. apply orb_true_r.
Qed.

Lemma join_In_infix (sep p : str) (parts : list str) :
  In p parts -> exists a b, join sep parts = a ++ p ++ b.
Proof.
  induction parts as [|q parts IH]; [easy|].
  intros [->|H].
  - destruct parts as [|r parts].
    + exists [], []. simpl. now rewrite app_nil_r.
    + exists [], (sep ++ join sep (r :: parts)). reflexivity.
  - destruct (IH H) as (a & b & E). destruct parts as [|r parts]; [easy|].
    exists (q ++ sep ++ a), b.
    change (join sep (q :: r :: parts)) with (q ++ sep ++ join sep (r :: parts)).
    rewrite E. now rewrite <- !app_assoc.
Qed.

Lemma join_In_contains (sep p : str) (parts : list str) :
  In p parts -> contains (join sep parts) p = true.
Proof.
  intro H. destruct (join_In_infix sep p parts H) as (a & b & ->).
  apply contains_infix.
Qed.

Lemma join_cons (sep p : str) (rest : list str) :
  join sep (p :: rest) = p ++ match rest with [] => [] | _ => sep ++ join sep rest end.
Proof. destruct rest; simpl; [now rewrite app_nil_r | reflexivity]. Qed.

(** A condition-adding call touches the condition list only. *)
Lemma call_frame (c : condition_call) (b : QueryBuilder.t) :
  exists conds, call c b = QueryBuilder.set_where conds b.
Proof.
  destruct c; simpl;
    unfold QueryBuilder.where_between, QueryBuilder.where_in,
      QueryBuilder.where_confirmed, QueryBuilder.where_candidates,
      QueryBuilder.where_like, QueryBuilder.where_discovery_method,
      QueryBuilder.where_default_flag, QueryBuilder.where_has_mass,
      QueryBuilder.where_has_radius, QueryBuilder.where_earth_sized,
      QueryBuilder.where_spatial_circle, QueryBuilder.where_spatial_box,
      QueryBuilder.and_where_or_where;
    try destruct (QueryBuilder._where_conditions b);
    unfold QueryBuilder.where_, QueryBuilder.and_where, QueryBuilder.or_where;
    eexists; reflexivity.
Qed.

Lemma calls_frame (cs : list condition_call) (b : QueryBuilder.t) :
  exists conds, calls cs b = QueryBuilder.set_where conds b.
Proof.
  revert b. induction cs as [|c cs IH]; intro b; simpl.
  - exists (QueryBuilder._where_conditions b). now destruct b.
  - destruct (call_frame c b) as [conds ->].
    destruct (IH (QueryBuilder.set_where conds b)) as [conds' E].
    exists conds'. exact E.
Qed.

(** What [build] puts after [WHERE ] when the first stored element came
    from [and_where] or [or_where]: the bare condition, then the other
    elements as stored, joined by blanks. *)
Lemma where_clause_and (c : str) (rest : list str) :
  QueryBuilder.where_clause (py "AND " ++ c) rest = join (py " ") (c :: rest).
Proof.
  unfold QueryBuilder.where_clause.
  change (startswith (py "AND " ++ c) (py "AND ")) with true. cbv iota.
  change (skipn 4 (py "AND " ++ c)) with c.
  now destruct rest.
Qed.

Lemma where_clause_or (c : str) (rest : list str) :
  QueryBuilder.where_clause (py "OR " ++ c) rest = join (py " ") (c :: rest).
Proof.
  unfold QueryBuilder.where_clause.
  change (startswith (py "OR " ++ c) (py "AND ")) with false. cbv iota.
  change (startswith (py "OR " ++ c) (py "OR ")) with true. cbv iota.
  change (skipn 3 (py "OR " ++ c)) with c.
  now destruct rest.
Qed.

(** C3. [where(c)] replaces the whole stored condition list by the single
    condition [c], as given, whatever calls added conditions before; after
    [where("a>1")], [and_where("b<2")], [where("c=3")] the query is the one
    [where("c=3")] alone gives: its WHERE part is exactly [WHERE c=3], and on
    a builder with [select('*')] and [from_table('ps')] neither [a>1] nor
    [b<2] occurs anywhere in the output. *)
Theorem where_replaces_conditions :
  (forall (c : str) (b : QueryBuilder.t),
      QueryBuilder._where_conditions (QueryBuilder.where_ c b) = [c])
  /\ (forall (cs : list condition_call) (c : str) (b : QueryBuilder.t),
         QueryBuilder.where_ c (calls cs b) = QueryBuilder.where_ c b)
  /\ (forall b : QueryBuilder.t,
         let b' := calls [Where (py "a>1"); AndWhere (py "b<2"); Where (py "c=3")] b in
         QueryBuilder.build b' = QueryBuilder.build (QueryBuilder.where_ (py "c=3") b)
         /\ forall table, In (py "WHERE c=3") (QueryBuilder.query_parts b' table))
  /\ (let b := calls [Where (py "a>1"); AndWhere (py "b<2"); Where (py "c=3")]
                 (QueryBuilder.from_table (inl (py "ps"))
                    (QueryBuilder.select (inl (py "*")) QueryBuilder.init)) in
      fst (QueryBuilder.build b) = Ok (py "SELECT * FROM ps WHERE c=3")
      /\ contains (py "SELECT * FROM ps WHERE c=3") (py "a>1") = false
      /\ contains (py "SELECT * FROM ps WHERE c=3") (py "b<2") = false).
Proof.
  split; [reflexivity|]. split; [|split].
  - intros cs c b. destruct (calls_frame cs b) as [conds ->]. reflexivity.
  - intro b. split; [reflexivity|].
    intro table. unfold QueryBuilder.query_parts.
    apply in_or_app. right. apply in_or_app. right. apply in_or_app. left.
    simpl. now left.
  - cbv zeta. repeat split; vm_compute; reflexivity.
Qed.

(** C7. When [and_where("x=1")] is the first condition-adding call, on a
    builder whose condition list is empty, the condition is stored as
    [AND x=1]; [build] removes an [AND ] or [OR ] prefix from the first stored
    element only, so the query (select and from being set) is the query
    without the condition with the one part [WHERE x=1] put after the FROM
    part; the elements after the first are kept as stored and joined by
    blanks. *)
Theorem and_where_first_prefix_stripped :
  forall b : QueryBuilder.t,
    QueryBuilder._where_conditions b = [] ->
    QueryBuilder._select_columns b <> [] ->
    QueryBuilder.truthy_str (QueryBuilder._from_table b) = true ->
    let b' := QueryBuilder.and_where (py "x=1") b in
    QueryBuilder._where_conditions b' = [py "AND x=1"]
    /\ (exists table,
           QueryBuilder._from_table b = Some table
           /\ fst (QueryBuilder.build b')
              = Ok (join (py " ") (QueryBuilder.query_parts b' table))
           /\ QueryBuilder.query_parts b' table
              = firstn 2 (QueryBuilder.query_parts b table)
                  ++ [py "WHERE x=1"]
                  ++ skipn 2 (QueryBuilder.query_parts b table)
           /\ contains (join (py " ") (QueryBuilder.query_parts b' table))
                (py "WHERE x=1") = true)
    /\ (forall (c : str) (rest : list str),
           QueryBuilder.where_clause (py "AND " ++ c) rest = join (py " ") (c :: rest)
           /\ QueryBuilder.where_clause (py "OR " ++ c) rest = join (py " ") (c :: rest)).
Proof.
  intros b Hw Hs Hf b'.
  assert (Hw' : QueryBuilder._where_conditions b' = [py "AND x=1"]).
  { unfold b', QueryBuilder.and_where. simpl. now rewrite Hw. }
  split; [exact Hw'|]. split.
  - destruct (QueryBuilder._from_table b) as [[|t0 table]|] eqn:Ef; try discriminate.
    exists (t0 :: table).
    assert (Hparts : QueryBuilder.query_parts b' (t0 :: table)
                     = firstn 2 (QueryBuilder.query_parts b (t0 :: table))
                         ++ [py "WHERE x=1"]
                         ++ skipn 2 (QueryBuilder.query_parts b (t0 :: table))).
    { unfold QueryBuilder.query_parts. rewrite Hw', Hw. reflexivity. }
    conjs.
    + reflexivity.
    + unfold QueryBuilder.build. cbn [fst].
      replace (QueryBuilder._select_columns b') with (QueryBuilder._select_columns b)
        by reflexivity.
      replace (QueryBuilder._from_table b') with (QueryBuilder._from_table b)
        by reflexivity.
      rewrite Ef. destruct (QueryBuilder._select_columns b); [contradiction|reflexivity].
    + exact Hparts.
    + apply join_In_contains. rewrite Hparts.
      apply in_or_app. right. now left.
  - intros c rest. split; [apply where_clause_and | apply where_clause_or].
Qed.

Lemma and_where_first_prefix_stripped_witness :
  fst (QueryBuilder.build
         (QueryBuilder.and_where (py "x=1")
            (QueryBuilder.from_table (inl (py "ps"))
               (QueryBuilder.select (inl (py "*")) QueryBuilder.init))))
  = Ok (py "SELECT * FROM ps WHERE x=1").
Proof.
  pose proof (and_where_first_prefix_stripped
                (QueryBuilder.from_table (inl (py "ps"))
                   (QueryBuilder.select (inl (py "*")) QueryBuilder.init))
                eq_refl
                (fun H : [py "*"] = [] => eq_ind [py "*"]
                   (fun l => match l with [] => False | _ :: _ => True end) I [] H)
                eq_refl) as (_ & (table & Ht & Hb & _) & _).
  injection Ht as <-. rewrite Hb. reflexivity.
Defined.

(** The outcome of [build] by the two attributes it tests. *)
Lemma build_outcome (b : QueryBuilder.t) :
  match QueryBuilder._select_columns b, QueryBuilder._from_table b with
  | _ :: _, Some ((_ :: _) as table) =>
      fst (QueryBuilder.build b) = Ok (join (py " ") (QueryBuilder.query_parts b table))
  | _, _ => exists msg, fst (QueryBuilder.build b) = Raise (mk_exn ValueError msg)
  end.
Proof.
  unfold QueryBuilder.build. cbn [fst].
  destruct (QueryBuilder._select_columns b) as [|c cols].
  - destruct (QueryBuilder._from_table b) as [[|]|]; eexists; reflexivity.
  - destruct (QueryBuilder._from_table b) as [[|]|]; try reflexivity;
      eexists; reflexivity.
Qed.

(** C8, as the code has it. [build] raises exactly when the select-column
    list is empty or the from-table is unset or the empty string; what it
    raises is a [ValueError]; a failing (or succeeding) [build] leaves the
    builder as it was, so the missing clause can be supplied afterwards and
    [build] then succeeds on the same builder. *)
Theorem build_validation :
  forall b : QueryBuilder.t,
    ((exists e, fst (QueryBuilder.build b) = Raise e) <->
     (QueryBuilder._select_columns b = []
      \/ QueryBuilder._from_table b = None
      \/ QueryBuilder._from_table b = Some []))
    /\ (forall e, fst (QueryBuilder.build b) = Raise e -> exn_cls e = ValueError)
    /\ snd (QueryBuilder.build b) = b
    /\ (forall cols : list str,
           cols <> [] ->
           QueryBuilder.truthy_str (QueryBuilder._from_table b) = true ->
           exists q,
             fst (QueryBuilder.build
                    (QueryBuilder.select (inr cols) (snd (QueryBuilder.build b))))
             = Ok q)
    /\ (forall table : str,
           table <> [] ->
           QueryBuilder._select_columns b <> [] ->
           exists q,
             fst (QueryBuilder.build
                    (QueryBuilder.from_table (inl table) (snd (QueryBuilder.build b))))
             = Ok q).
Proof.
  intro b. pose proof (build_outcome b) as Hb.
  split; [|split; [|split; [reflexivity|split]]].
  - destruct (QueryBuilder._select_columns b) as [|c cols];
      destruct (QueryBuilder._from_table b) as [[|t0 table]|]; cbn iota in Hb.
    1-4, 6: split; [intros _; auto | intros _; destruct Hb as [msg Hm]; eauto].
    rewrite Hb. split.
    + intros [e He]. discriminate.
    + intros [H|[H|H]]; discriminate.
  - intros e He.
    destruct (QueryBuilder._select_columns b) as [|c cols];
      destruct (QueryBuilder._from_table b) as [[|t0 table]|]; cbn iota in Hb.
    1-4, 6: destruct Hb as [msg Hm]; rewrite Hm in He; injection He as <-; reflexivity.
    rewrite Hb in He. discriminate.
  - intros [|c cols] Hc Hf; [contradiction|].
    unfold QueryBuilder.build, QueryBuilder.select, QueryBuilder.set_select.
    cbn [fst snd QueryBuilder._select_columns QueryBuilder._from_table].
    destruct (QueryBuilder._from_table b) as [[|t0 table]|]; try discriminate.
    eexists. reflexivity.
  - intros [|t0 table] Ht Hs; [contradiction|].
    unfold QueryBuilder.build, QueryBuilder.from_table.
    cbn [fst snd QueryBuilder._select_columns QueryBuilder._from_table].
    destruct (QueryBuilder._select_columns b) as [|c cols]; [contradiction|].
    eexists. reflexivity.
Qed.

(** [build] fails for want of a table, the table is supplied, [build]
    succeeds. *)
Lemma build_validation_witness :
  fst (QueryBuilder.build (QueryBuilder.select (inl (py "*")) QueryBuilder.init))
  = Raise (mk_exn ValueError (py "FROM table must be specified"))
  /\ exists q,
      fst (QueryBuilder.build
             (QueryBuilder.from_table (inl (py "ps"))
                (snd (QueryBuilder.build
                        (QueryBuilder.select (inl (py "*")) QueryBuilder.init)))))
      = Ok q.
Proof.
  split; [reflexivity|].
  apply (build_validation (QueryBuilder.select (inl (py "*")) QueryBuilder.init)).
  - discriminate.
  - discriminate.
Defined.

(** C8 as stated fails: with a select list and the from-table set to the
    empty string, [build] raises. *)
Lemma build_raises_on_empty_table_name :
  QueryBuilder._select_columns
    (QueryBuilder.from_table (inl (py ""))
       (QueryBuilder.select (inl (py "*")) QueryBuilder.init)) = [py "*"]
  /\ QueryBuilder._from_table
       (QueryBuilder.from_table (inl (py ""))
          (QueryBuilder.select (inl (py "*")) QueryBuilder.init)) = Some (py "")
  /\ fst (QueryBuilder.build
            (QueryBuilder.from_table (inl (py ""))
               (QueryBuilder.select (inl (py "*")) QueryBuilder.init)))
     = Raise (mk_exn ValueError (py "FROM table must be specified")).
Proof. repeat split. Qed.

(** C6, on the code. [to_url_encoded] returns [build]'s output with every
    blank replaced by [+] and nothing else: no percent-encoding follows,
    unlike [url_encode_query] of [utils.py].  On the query
    [SELECT * FROM ps WHERE pl_name like 'K%'] the two differ. *)
Theorem to_url_encoded_replaces_blanks_only :
  (forall b : QueryBuilder.t,
      fst (QueryBuilder.to_url_encoded b)
      = match fst (QueryBuilder.build b) with
        | Ok q => Ok (replace_char " " "+" q)
        | Raise e => Raise e
        end)
  /\ (let b := QueryBuilder.where_ (py "pl_name like 'K%'")
                 (QueryBuilder.from_table (inl (py "ps"))
                    (QueryBuilder.select (inl (py "*")) QueryBuilder.init)) in
      fst (QueryBuilder.build b) = Ok (py "SELECT * FROM ps WHERE pl_name like 'K%'")
      /\ fst (QueryBuilder.to_url_encoded b)
         = Ok (py "SELECT+*+FROM+ps+WHERE+pl_name+like+'K%'")
      /\ Utils.url_encode_query (py "SELECT * FROM ps WHERE pl_name like 'K%'")
         = py "SELECT+%2A+FROM+ps+WHERE+pl_name+like+%27K%25%27").
Proof.
  split.
  - intro b. unfold QueryBuilder.to_url_encoded.
    now destruct (QueryBuilder.build b) as [[q|e] b'].
  - cbv zeta. repeat split; vm_compute; reflexivity.
Qed.

(** ** Spatial predicates *)

Lemma join_pairs_flat (sep : str) (f g : value -> str) (l : list (value * value)) :
  join sep (map (fun '(ra, dec) => f ra ++ sep ++ g dec) l)
  = join sep (flat_map (fun '(ra, dec) => [f ra; g dec]) l).
Proof.
  induction l as [|[ra dec] l IH]; [reflexivity|].
  cbn [map flat_map app]. rewrite join_cons, IH.
  destruct l as [|[ra' dec'] l].
  - simpl. now rewrite !app_nil_r.
  - cbn [map flat_map app]. cbn [join]. now rewrite <- !app_assoc.
Qed.

(** C9. [polygon] raises an input error on fewer than three vertex pairs;
    on three or more it returns a predicate that contains every coordinate,
    flattened in order and joined by commas.  Two pairs raise; for
    [(1,2),(3,4),(5,6)] the predicate contains [1,2,3,4,5,6]. *)
Theorem polygon_vertices :
  (forall (coordinates : list (value * value)) (coordinate_system : str),
      ((length coordinates < 3)%nat ->
       exists msg,
         SpatialConstraints.polygon coordinates coordinate_system
         = Raise (mk_exn ValueError msg))
      /\ ((3 <= length coordinates)%nat ->
          exists q,
            SpatialConstraints.polygon coordinates coordinate_system = Ok q
            /\ contains q
                 (join (py ",")
                    (flat_map (fun '(ra, dec) => [str_of ra; str_of dec]) coordinates))
               = true))
  /\ SpatialConstraints.polygon [(VInt 1, VInt 2); (VInt 3, VInt 4)]
       SpatialConstraints.icrs
     = Raise (mk_exn ValueError (py "Polygon must have at least 3 vertices"))
  /\ SpatialConstraints.polygon [(VInt 1, VInt 2); (VInt 3, VInt 4); (VInt 5, VInt 6)]
       SpatialConstraints.icrs
     = Ok (py "contains(point('icrs',ra,dec),polygon('icrs',1,2,3,4,5,6))=1").
Proof.
  split; [|split; reflexivity].
  intros coordinates cs. unfold SpatialConstraints.polygon. split; intro H.
  - apply Nat.ltb_lt in H. rewrite H. eexists. reflexivity.
  - apply Nat.ltb_ge in H. rewrite H. eexists. split; [reflexivity|].
    rewrite (join_pairs_flat (py ",") str_of str_of).
    rewrite !app_assoc. rewrite <- app_assoc. apply contains_infix.
Qed.

Lemma polygon_vertices_witness :
  exists q,
    SpatialConstraints.polygon
      [(VFloat (FFin false (py "217") 3), VFloat (FFin true (py "62") 2));
       (VFloat (FFin false (py "218") 3), VFloat (FFin true (py "62") 2));
       (VFloat (FFin false (py "218") 3), VFloat (FFin true (py "63") 2));
       (VFloat (FFin false (py "217") 3), VFloat (FFin true (py "63") 2))]
      SpatialConstraints.icrs = Ok q
    /\ contains q (py "217.0,-62.0,218.0,-62.0,218.0,-63.0,217.0,-63.0") = true.
Proof.
  destruct polygon_vertices as [H _].
  apply (H [(VFloat (FFin false (py "217") 3), VFloat (FFin true (py "62") 2));
            (VFloat (FFin false (py "218") 3), VFloat (FFin true (py "62") 2));
            (VFloat (FFin false (py "218") 3), VFloat (FFin true (py "63") 2));
            (VFloat (FFin false (py "217") 3), VFloat (FFin true (py "63") 2))]
           SpatialConstraints.icrs).
  simpl. lia.
Defined.

(** ** The transform pipeline *)

Lemma bind_ret_l (A B : Type) (a : A) (k : A -> Transforms.printing B) :
  Transforms.bind (Transforms.ret a) k = k a.
Proof. unfold Transforms.bind, Transforms.ret. now destruct (k a). Qed.

(** The default pipeline applied to one value. *)
Lemma apply_default_rules (key : str) (v : value) :
  Transforms.apply_rules key Transforms.init v = (Ok (default_result v), []).
Proof.
  unfold Transforms.init, Transforms._add_default_rules, Transforms.add_rule.
  cbn [app Transforms.apply_rules].
  unfold Transforms.apply_rule at 1.
  cbn [Transforms.column Transforms.condition Transforms.transform_func].
  change (str_eqb (py "*") (py "*")) with true. cbn [orb].
  rewrite !bind_ret_l.
  unfold Transforms.apply_rule at 1.
  cbn [Transforms.column Transforms.condition Transforms.transform_func].
  change (str_eqb (py "*") (py "*")) with true. cbn [orb].
  rewrite !bind_ret_l.
  unfold Transforms.apply_rule at 1.
  cbn [Transforms.column Transforms.condition Transforms.transform_func].
  change (str_eqb (py "*") (py "*")) with true. cbn [orb].
  unfold default_result. cbv zeta.
  destruct (Transforms._handle_nulls (VStr (Transforms._normalize_column_name v)))
    as [| | | |s]; try reflexivity.
  unfold Transforms.bind at 1. cbn [app].
  destruct (Transforms._is_numeric_string s); reflexivity.
Qed.

Lemma transform_record_default_single (k : str) (v : value) :
  Transforms.transform_record Transforms.init [(k, v)]
  = (Ok [(Transforms._normalize_column_name (VStr k), default_result v)], []).
Proof.
  unfold Transforms.transform_record. cbn [Transforms.transform_items].
  rewrite apply_default_rules. reflexivity.
Qed.

(** C1, on the code. With the default rules, the field value ["2.3"]
    becomes the integer 23, not the float 2.3: the first default rule turns
    it into ["2_3"] before the coercion rule reads it, as it removes the
    decimal point from every string.  ["42"] becomes the integer 42 and
    ["abc"] stays.  The coercion function alone maps ["2.3"] to the float
    2.3. *)
Theorem default_rules_numeric_coercion :
  Transforms.transform_record Transforms.init [(py "pl_masse", VStr (py "2.3"))]
  = (Ok [(py "pl_masse", VInt 23)], [])
  /\ Transforms.transform_record Transforms.init [(py "pl_eqt", VStr (py "42"))]
     = (Ok [(py "pl_eqt", VInt 42)], [])
  /\ Transforms.transform_record Transforms.init [(py "hostname", VStr (py "abc"))]
     = (Ok [(py "hostname", VStr (py "abc"))], [])
  /\ Transforms._normalize_column_name (VStr (py "2.3")) = py "2_3"
  /\ (forall s : str,
         char_in "." (Transforms._normalize_column_name (VStr s)) = false)
  /\ Transforms._convert_numeric (VStr (py "2.3")) = VFloat (FFin false (py "23") 1)
  /\ repr_float (FFin false (py "23") 1) = py "2.3".
Proof.
  conjs; try (vm_compute; reflexivity).
  intro s. now apply normalize_no_char.
Qed.

(** C2, on the code. With the default rules, the field values [""],
    ["NULL"] and ["--"] become null and ["0"] does not, but ["N/A"] becomes
    the string ["n_a"]: the first default rule rewrites it before the null
    rule reads it, and what it hands on is never one of the sentinels
    [NULL], [NaN], [N/A], [n/a], [-], [--].  The null rule alone maps
    ["N/A"] to null. *)
Theorem default_rules_null_folding :
  Transforms.transform_record Transforms.init [(py "null_field", VStr (py "N/A"))]
  = (Ok [(py "null_field", VStr (py "n_a"))], [])
  /\ Transforms.transform_record Transforms.init [(py "empty_field", VStr (py ""))]
     = (Ok [(py "empty_field", VNone)], [])
  /\ Transforms.transform_record Transforms.init [(py "null_field", VStr (py "NULL"))]
     = (Ok [(py "null_field", VNone)], [])
  /\ Transforms.transform_record Transforms.init [(py "empty_field", VStr (py "--"))]
     = (Ok [(py "empty_field", VNone)], [])
  /\ Transforms.transform_record Transforms.init [(py "n", VStr (py "0"))]
     = (Ok [(py "n", VInt 0)], [])
  /\ (forall s : str,
         str_in (Transforms._normalize_column_name (VStr s))
           [py "NULL"; py "NaN"; py "N/A"; py "n/a"; py "-"; py "--"] = false)
  /\ Transforms._handle_nulls (VStr (py "N/A")) = VNone.
Proof.
  conjs; try (vm_compute; reflexivity).
  intro s. now apply normalize_not_in.
Qed.

Lemma apply_rule_failure (key : str) (rule : Transforms.TransformRule) (v : value) (e : exn) :
  fires key rule v ->
  Transforms.transform_func rule v = Raise e ->
  is_Exception (exn_cls e) = true ->
  Transforms.apply_rule key rule v = (Ok v, [diagnostic key e]).
Proof.
  intros [Hcol Hcond] Hraise Hexc. unfold Transforms.apply_rule.
  assert (Hsel : str_eqb (Transforms.column rule) (py "*")
                 || str_eqb (Transforms.column rule) key = true).
  { destruct Hcol as [H|H]; rewrite H, str_eqb_refl;
      [reflexivity | apply orb_true_r]. }
  rewrite Hsel.
  destruct (Transforms.condition rule) as [c|].
  - rewrite Hcond. unfold Transforms.bind. now rewrite Hraise, Hexc.
  - rewrite bind_ret_l. now rewrite Hraise, Hexc.
Qed.

Lemma apply_rule_tame (key : str) (rule : Transforms.TransformRule) (v : value) :
  tame rule -> exists v' out, Transforms.apply_rule key rule v = (Ok v', out).
Proof.
  intros [Hc He]. unfold Transforms.apply_rule.
  destruct (str_eqb (Transforms.column rule) (py "*")
            || str_eqb (Transforms.column rule) key); [|now eexists; eexists].
  assert (Hrun : forall go : bool, exists v' out,
             (if go
              then match Transforms.transform_func rule v with
                   | Ok v0 => Transforms.ret v0
                   | Raise e =>
                       if is_Exception (exn_cls e)
                       then (Ok v, [py "Transform error for " ++ key ++ py ": " ++ exn_msg e])
                       else (Raise e, [])
                   end
              else Transforms.ret v) = (Ok v', out)).
  { intros [|]; [|now eexists; eexists].
    destruct (Transforms.transform_func rule v) as [v0|e] eqn:E;
      [now eexists; eexists|].
    rewrite (He v e E). now eexists; eexists. }
  unfold condition_total in Hc.
  destruct (Transforms.condition rule) as [c|].
  - destruct (Hc v) as [go ->]. unfold Transforms.bind.
    destruct (Hrun go) as (v' & out & ->). now eexists; eexists.
  - rewrite bind_ret_l. exact (Hrun true).
Qed.

Lemma apply_rules_tame (key : str) (rules : list Transforms.TransformRule) (v : value) :
  Forall tame rules -> exists v' out, Transforms.apply_rules key rules v = (Ok v', out).
Proof.
  intro H. revert v. induction H as [|rule rules Hr _ IH]; intro v.
  - now eexists; eexists.
  - cbn [Transforms.apply_rules].
    destruct (apply_rule_tame key v Hr) as (v1 & out1 & ->).
    destruct (IH v1) as (v2 & out2 & E). unfold Transforms.bind. rewrite E.
    now eexists; eexists.
Qed.

Lemma transform_items_tame (self : Transforms.DataTransformer)
    (items : Transforms.dict) (transformed : Transforms.dict) :
  Forall tame self ->
  exists vals out,
    Forall2 (fun kv v' =>
               fst (Transforms.apply_rules
                      (Transforms._normalize_column_name (VStr (fst kv))) self (snd kv))
               = Ok v') items vals
    /\ Transforms.transform_items self items transformed
       = (Ok (fold_left
                (fun d kv => Transforms.dict_set
                               (Transforms._normalize_column_name (VStr (fst (fst kv))))
                               (snd kv) d)
                (combine items vals) transformed), out).
Proof.
  intro H. revert transformed.
  induction items as [|[k v] items IH]; intro transformed.
  - exists [], []. split; [constructor | reflexivity].
  - cbn [Transforms.transform_items].
    destruct (apply_rules_tame (Transforms._normalize_column_name (VStr k)) v H)
      as (v1 & out1 & E1).
    destruct (IH (Transforms.dict_set (Transforms._normalize_column_name (VStr k))
                    v1 transformed)) as (vals & out2 & HF & E2).
    exists (v1 :: vals), (out1 ++ out2). split.
    + constructor; [cbn [fst snd]; now rewrite E1 | exact HF].
    + rewrite E1. unfold Transforms.bind. rewrite E2. reflexivity.
Qed.

Lemma transform_batch_tame (self : Transforms.DataTransformer)
    (records : list Transforms.dict) :
  Forall tame self ->
  exists ds out,
    Forall2 (fun r d => fst (Transforms.transform_record self r) = Ok d) records ds
    /\ Transforms.transform_batch self records = (Ok ds, out).
Proof.
  intro H. induction records as [|r records (ds & out & HF & E)].
  - exists [], []. split; [constructor | reflexivity].
  - cbn [Transforms.transform_batch].
    destruct (transform_items_tame r [] H) as (vals & out1 & _ & E1).
    fold (Transforms.transform_record self r) in E1.
    eexists (_ :: ds), _. split.
    + constructor; [now rewrite E1 | exact HF].
    + rewrite E1. unfold Transforms.bind at 1. rewrite E.
      unfold Transforms.bind, Transforms.ret. reflexivity.
Qed.

(** C4, as the code has it. In a pipeline whose conditions do not raise and
    whose transforms raise only errors deriving from [Exception]: when a
    rule's transform raises on the current value of a field, the error is
    caught, one line is printed, the value stays what it was before that
    rule, and the later rules run on that value; every field's final value
    is the result of the rules on that field alone, every record of a batch
    is transformed by itself, and neither [transform_record] nor
    [transform_batch] raises. *)
Theorem rule_failure_is_local :
  forall self : Transforms.DataTransformer,
    Forall tame self ->
    (forall (key : str) (rule : Transforms.TransformRule) (v : value) (e : exn),
        In rule self ->
        fires key rule v ->
        Transforms.transform_func rule v = Raise e ->
        Transforms.apply_rule key rule v = (Ok v, [diagnostic key e])
        /\ forall later : list Transforms.TransformRule,
            fst (Transforms.apply_rules key (rule :: later) v)
            = fst (Transforms.apply_rules key later v))
    /\ (forall record : Transforms.dict,
           exists vals out,
             Forall2 (fun kv v' =>
                        fst (Transforms.apply_rules
                               (Transforms._normalize_column_name (VStr (fst kv)))
                               self (snd kv)) = Ok v') record vals
             /\ Transforms.transform_record self record = (Ok (assemble record vals), out))
    /\ (forall records : list Transforms.dict,
           exists ds out,
             Forall2 (fun r d => fst (Transforms.transform_record self r) = Ok d)
               records ds
             /\ Transforms.transform_batch self records = (Ok ds, out)).
Proof.
  intros self Htame. split; [|split].
  - intros key rule v e Hin Hf Hr.
    assert (He : is_Exception (exn_cls e) = true).
    { rewrite Forall_forall in Htame. exact (proj2 (Htame rule Hin) v e Hr). }
    pose proof (apply_rule_failure Hf Hr He) as E.
    split; [exact E|]. intro later. cbn [Transforms.apply_rules]. rewrite E.
    unfold Transforms.bind. now destruct (Transforms.apply_rules key later v).
  - intro record. apply transform_items_tame, Htame.
  - intro records. apply transform_batch_tame, Htame.
Qed.

Lemma default_rules_tame : Forall tame Transforms.init.
Proof.
  repeat constructor; try (intros v e H; discriminate).
  intro v. eexists. reflexivity.
Qed.

(** The default pipeline with a rule on [pl_masse] that always fails, on a
    batch of two records. *)
Lemma rule_failure_is_local_witness :
  exists ds out,
    Forall2 (fun r d =>
               fst (Transforms.transform_record
                      (Transforms.init ++ [failing_rule (py "pl_masse")]) r) = Ok d)
      [[(py "PL_NAME", VStr (py "Kepler-442 b")); (py "pl_masse", VStr (py "2.3"))];
       [(py "pl_masse", VStr (py "0.297")); (py "null_field", VStr (py "NULL"))]] ds
    /\ Transforms.transform_batch (Transforms.init ++ [failing_rule (py "pl_masse")])
         [[(py "PL_NAME", VStr (py "Kepler-442 b")); (py "pl_masse", VStr (py "2.3"))];
          [(py "pl_masse", VStr (py "0.297")); (py "null_field", VStr (py "NULL"))]]
       = (Ok ds, out).
Proof.
  apply (@rule_failure_is_local (Transforms.init ++ [failing_rule (py "pl_masse")])).
  apply Forall_app. split; [exact default_rules_tame|].
  repeat constructor. intros v e H. injection H as <-. reflexivity.
Defined.

(** The same batch, computed: the failing rule leaves [pl_masse] as the
    rules before it made it, and the other fields and the second record are
    transformed. *)
Example failing_rule_batch :
  Transforms.transform_batch (Transforms.init ++ [failing_rule (py "pl_masse")])
    [[(py "PL_NAME", VStr (py "Kepler-442 b")); (py "pl_masse", VStr (py "2.3"))];
     [(py "pl_masse", VStr (py "0.297")); (py "null_field", VStr (py "NULL"))]]
  = (Ok [[(py "pl_name", VStr (py "kepler_442_b")); (py "pl_masse", VInt 23)];
         [(py "pl_masse", VInt 297); (py "null_field", VNone)]],
     [py "Transform error for pl_masse: bad value";
      py "Transform error for pl_masse: bad value"]).
Proof. vm_compute. reflexivity. Qed.

(** C4 as stated fails: a condition that raises, or a transform that raises
    [SystemExit], propagates out of [transform_record] and
    [transform_batch]. *)
Lemma transform_record_propagates :
  fst (Transforms.transform_record [failing_condition_rule] [(py "a", VInt 1)])
  = Raise (mk_exn TypeError (py "bad condition"))
  /\ fst (Transforms.transform_batch [failing_condition_rule] [[(py "a", VInt 1)]])
     = Raise (mk_exn TypeError (py "bad condition"))
  /\ fst (Transforms.transform_record [exiting_rule] [(py "a", VInt 1)])
     = Raise (mk_exn SystemExit (py "1")).
Proof. repeat split. Qed.

(** ** Numbers and their decimal renderings *)

Lemma digit_chr_spec (n : N) :
  (n < 10)%N -> is_digit (digit_chr n) = true /\ digit_val (digit_chr n) = n.
Proof.
  intro H.
  assert (E : n = 0%N \/ n = 1%N \/ n = 2%N \/ n = 3%N \/ n = 4%N \/ n = 5%N
              \/ n = 6%N \/ n = 7%N \/ n = 8%N \/ n = 9%N) by lia.
  repeat (destruct E as [->|E]; [split; reflexivity|]). subst. split; reflexivity.
Qed.

Lemma digits_val_app (a : N) (s1 s2 : str) :
  digits_val a (s1 ++ s2) = digits_val (digits_val a s1) s2.
Proof. revert a. induction s1 as [|c s1 IH]; intro a; simpl; [easy|apply IH]. Qed.

Lemma digits_val_shift (a : N) (s : str) :
  digits_val a s = (a * 10 ^ N.of_nat (length s) + digits_val 0 s)%N.
Proof.
  revert a. induction s as [|c s IH]; intro a.
  - simpl. lia.
  - cbn [digits_val length]. rewrite IH, (IH (10 * 0 + digit_val c)%N).
    rewrite Nat2N.inj_succ, N.pow_succ_r'. lia.
Qed.

Lemma digits_fuel_S (fuel : nat) (n : N) (acc : str) :
  digits_fuel (S fuel) n acc
  = if (n <? 10)%N then digit_chr (n mod 10) :: acc
    else digits_fuel fuel (n / 10) (digit_chr (n mod 10) :: acc).
Proof. reflexivity. Qed.

Lemma digits_fuel_spec (fuel : nat) (n : N) (acc : str) :
  (n < 2 ^ N.of_nat fuel)%N ->
  exists ds,
    digits_fuel (S fuel) n acc = ds ++ acc
    /\ ds <> [] /\ forallb is_digit ds = true /\ digits_val 0 ds = n.
Proof.
  revert n acc. induction fuel as [|fuel IH]; intros n acc Hn.
  - assert (n = 0%N) by (simpl in Hn; lia). subst.
    exists [digit_chr 0]. repeat split. discriminate.
  - rewrite digits_fuel_S. destruct (n <? 10)%N eqn:E.
    + apply N.ltb_lt in E. destruct (digit_chr_spec E) as [Hd Hv].
      rewrite N.mod_small by exact E.
      exists [digit_chr n]. repeat split; [discriminate | simpl; now rewrite Hd |].
      simpl. rewrite Hv. lia.
    + apply N.ltb_ge in E.
      assert (Hm : (n mod 10 < 10)%N) by (apply N.mod_lt; lia).
      destruct (digit_chr_spec Hm) as [Hd Hv].
      assert (Hq : (n / 10 < 2 ^ N.of_nat fuel)%N).
      { rewrite Nat2N.inj_succ, N.pow_succ_r' in Hn.
        apply N.Div0.div_lt_upper_bound. lia. }
      destruct (IH (n / 10)%N (digit_chr (n mod 10) :: acc) Hq)
        as (ds & E1 & Hne & Hall & Hval).
      exists (ds ++ [digit_chr (n mod 10)]). repeat split.
      * rewrite E1. now rewrite <- app_assoc.
      * now destruct ds.
      * rewrite forallb_app, Hall. simpl. now rewrite Hd.
      * rewrite digits_val_app, Hval. cbn [digits_val]. rewrite Hv.
        pose proof (N.Div0.div_mod n 10). lia.
Qed.

Lemma digits_spec (n : N) :
  digits n <> [] /\ forallb is_digit (digits n) = true /\ digits_val 0 (digits n) = n.
Proof.
  unfold digits.
  destruct (@digits_fuel_spec (N.to_nat (N.size n)) n [])
    as (ds & E & Hne & Hall & Hval).
  - rewrite N2Nat.id. apply N.size_gt.
  - rewrite E, app_nil_r. auto.
Qed.

(** Facts about the characters of number renderings. *)
Lemma plain_facts (c : ascii) :
  plain c = true ->
  is_space c = false /\ is_c_space c = false /\ to_ascii_char c = c
  /\ Ascii.eqb c "_" = false /\ lower_char c = c /\ c_tolower c = c.
Proof.
  destruct c as [[] [] [] [] [] [] [] []]; intro H; try discriminate H;
    repeat split; reflexivity.
Qed.

Lemma is_digit_plain (c : ascii) : is_digit c = true -> plain c = true.
Proof. unfold plain. now intros ->. Qed.

Lemma forallb_digit_plain (s : str) :
  forallb is_digit s = true -> forallb plain s = true.
Proof.
  induction s as [|c s IH]; simpl; [easy|].
  intro H. apply andb_true_iff in H as [H1 H2].
  now rewrite (is_digit_plain _ H1), IH.
Qed.

Lemma map_fix (f : ascii -> ascii) (s : str) :
  (forall c, In c s -> f c = c) -> map f s = s.
Proof.
  induction s as [|c s IH]; simpl; [easy|].
  intro H. rewrite (H c) by now left. f_equal. apply IH. auto.
Qed.

Lemma rstrip_by_fix (p : ascii -> bool) (s : str) (d : ascii) :
  s <> [] -> p (last s d) = false -> rstrip_by p s = s.
Proof.
  intros Hne Hl. unfold rstrip_by.
  rewrite (app_removelast_last d Hne) at 1.
  rewrite rev_app_distr. simpl. rewrite Hl. simpl.
  rewrite rev_involutive. symmetry. now apply app_removelast_last.
Qed.

Lemma strip_by_fix (p : ascii -> bool) (s : str) :
  (forall c, In c s -> p c = false) -> strip_by p s = s.
Proof.
  intro H. unfold strip_by. destruct s as [|c s]; [reflexivity|].
  rewrite lstrip_by_fix by (apply H; now left).
  apply rstrip_by_fix with (d := c); [discriminate|].
  apply H. destruct (@exists_last _ (c :: s)) as (s' & x & E); [discriminate|].
  rewrite E, last_last. apply in_or_app. right. now left.
Qed.

(** A rendering made of [plain] characters passes unchanged through
    stripping, lowering and the preparation [int] and [float] apply. *)
Lemma plain_str_facts (s : str) :
  forallb plain s = true ->
  strip s = s /\ lower s = s /\ map to_ascii_char s = s
  /\ strip_by is_c_space s = s /\ lstrip_by is_c_space s = s
  /\ map c_tolower s = s /\ char_in "_" s = false.
Proof.
  intro H. rewrite forallb_forall in H.
  repeat split.
  - apply strip_by_fix. intros c Hc. now apply plain_facts, H.
  - apply map_fix. intros c Hc. now apply plain_facts, H.
  - apply map_fix. intros c Hc. now apply plain_facts, H.
  - apply strip_by_fix. intros c Hc. now apply plain_facts, H.
  - apply lstrip_by_fix. destruct s as [|c s]; [easy|].
    apply plain_facts, H. now left.
  - apply map_fix. intros c Hc. now apply plain_facts, H.
  - unfold char_in. destruct (existsb (Ascii.eqb "_") s) eqn:E; [|reflexivity].
    apply existsb_exists in E as (c & Hc & Ec). apply Ascii.eqb_eq in Ec. subst c.
    now apply H in Hc.
Qed.

(** A string with a digit is none of a list of strings without digits. *)
Lemma has_digit_not_in (s : str) (xs : list str) :
  existsb is_digit s = true ->
  forallb (forallb (fun c => negb (is_digit c))) xs = true ->
  str_in s xs = false.
Proof.
  intros Hs Hxs. unfold str_in. destruct (existsb (str_eqb s) xs) eqn:E; [|reflexivity].
  apply existsb_exists in E as (x & Hx & Ex). apply str_eqb_eq in Ex. subst x.
  rewrite forallb_forall in Hxs. specialize (Hxs s Hx).
  apply existsb_exists in Hs as (c & Hc & Hd).
  rewrite forallb_forall in Hxs. specialize (Hxs c Hc). now rewrite Hd in Hxs.
Qed.

Lemma scan_int_digits (ds : str) (prev : ascii) (seen : bool) (acc : N) :
  forallb is_digit ds = true ->
  Ascii.eqb prev "_" = false ->
  scan_int prev seen acc ds
  = Some (digits_val acc ds, seen || negb (match ds with [] => true | _ => false end), []).
Proof.
  revert prev seen acc. induction ds as [|c ds IH]; intros prev seen acc Hd Hp.
  - simpl. rewrite Hp. now rewrite orb_false_r.
  - simpl in Hd. apply andb_true_iff in Hd as [Hc Hd].
    cbn [scan_int]. rewrite Hc. rewrite IH; [|exact Hd|].
    + simpl. now rewrite orb_true_r.
    + now apply plain_facts, is_digit_plain.
Qed.

Lemma split_sign_digits (ds : str) :
  ds <> [] -> forallb is_digit ds = true -> split_sign ds = (false, ds).
Proof.
  destruct ds as [|c ds]; [easy|]. intros _ H. simpl in H.
  apply andb_true_iff in H as [H _]. unfold split_sign.
  destruct c as [[] [] [] [] [] [] [] []]; try discriminate H; reflexivity.
Qed.

Lemma startswith_digits (ds : str) :
  forallb is_digit ds = true -> startswith ds (py "_") = false.
Proof.
  destruct ds as [|c ds]; [easy|]. simpl. intro H.
  apply andb_true_iff in H as [H _].
  destruct c as [[] [] [] [] [] [] [] []]; try discriminate H; reflexivity.
Qed.

Lemma str_of_int_plain (z : Z) : forallb plain (str_of_int z) = true.
Proof.
  unfold str_of_int. destruct (digits_spec (Z.abs_N z)) as (_ & H & _).
  apply forallb_digit_plain in H. destruct (z <? 0)%Z; simpl; now rewrite ?H.
Qed.

Lemma str_of_int_has_digit (z : Z) : existsb is_digit (str_of_int z) = true.
Proof.
  unfold str_of_int. destruct (digits_spec (Z.abs_N z)) as (Hne & H & _).
  assert (E : existsb is_digit (digits (Z.abs_N z)) = true).
  { destruct (digits (Z.abs_N z)) as [|c ds]; [easy|]. simpl in *.
    apply andb_true_iff in H as [-> _]. reflexivity. }
  destruct (z <? 0)%Z; simpl; now rewrite E.
Qed.

(** [int(str(n)) == n] *)
Lemma int_of_str_of_int (z : Z) : int_of_str (str_of_int z) = Some z.
Proof.
  unfold int_of_str.
  destruct (plain_str_facts _ (str_of_int_plain z)) as (_ & _ & -> & _ & -> & _).
  unfold str_of_int. destruct (digits_spec (Z.abs_N z)) as (Hne & Hd & Hv).
  assert (Hscan : scan_int (chr 0) false 0 (digits (Z.abs_N z))
                  = Some (Z.abs_N z, true, [])).
  { rewrite scan_int_digits by (exact Hd || reflexivity). rewrite Hv.
    now destruct (digits (Z.abs_N z)). }
  destruct (z <? 0)%Z eqn:E.
  - cbn [split_sign]. change (Ascii.eqb "-" "-") with true. cbv iota.
    rewrite startswith_digits by exact Hd. rewrite Hscan. cbn [lstrip_by].
    apply Z.ltb_lt in E. f_equal. rewrite N2Z.inj_abs_N. lia.
  - rewrite split_sign_digits by assumption.
    rewrite startswith_digits by exact Hd. rewrite Hscan. cbn [lstrip_by].
    apply Z.ltb_ge in E. f_equal. rewrite N2Z.inj_abs_N. lia.
Qed.

Lemma span_digits_app (ds r : str) :
  forallb is_digit ds = true ->
  match r with [] => True | c :: _ => is_digit c = false end ->
  span_digits (ds ++ r) = (ds, r).
Proof.
  intros Hd Hr. induction ds as [|c ds IH].
  - destruct r as [|c r]; simpl; [reflexivity | now rewrite Hr].
  - simpl in Hd. apply andb_true_iff in Hd as [Hc Hd].
    cbn [app span_digits]. rewrite Hc, IH by exact Hd. reflexivity.
Qed.

Lemma span_digits_all (ds : str) :
  forallb is_digit ds = true -> span_digits ds = (ds, []).
Proof.
  intro H. rewrite <- (app_nil_r ds) at 1. now apply span_digits_app.
Qed.

(** The exponent that [repr] prints reads back as the exponent. *)
Lemma exp_str_spec (e : Z) :
  exists ds,
    exp_str e = (if (e <? 0)%Z then "-"%char else "+"%char) :: ds
    /\ ds <> [] /\ forallb is_digit ds = true /\ digits_val 0 ds = Z.abs_N e.
Proof.
  unfold exp_str. destruct (digits_spec (Z.abs_N e)) as (Hne & Hd & Hv).
  destruct (length (digits (Z.abs_N e)) <? 2)%nat.
  - exists ("0"%char :: digits (Z.abs_N e)). repeat split.
    + discriminate.
    + simpl. exact Hd.
    + exact Hv.
  - exists (digits (Z.abs_N e)). now repeat split.
Qed.

Lemma exp_str_plain (e : Z) : forallb plain (exp_str e) = true.
Proof.
  destruct (exp_str_spec e) as (ds & -> & _ & Hd & _).
  apply forallb_digit_plain in Hd. simpl. rewrite Hd.
  now destruct (e <? 0)%Z.
Qed.

Lemma parse_exponent (e : Z) :
  exists eneg ed0 ed,
    split_sign (exp_str e) = (eneg, ed0 :: ed)
    /\ span_digits (ed0 :: ed) = (ed0 :: ed, [])
    /\ (if eneg then (- Z.of_N (digits_val 0 (ed0 :: ed)))%Z
        else Z.of_N (digits_val 0 (ed0 :: ed))) = e.
Proof.
  destruct (exp_str_spec e) as (ds & E & Hne & Hd & Hv).
  destruct ds as [|ed0 ed]; [contradiction|].
  exists (e <? 0)%Z, ed0, ed. rewrite E. repeat split.
  - now destruct (e <? 0)%Z.
  - now apply span_digits_all.
  - rewrite Hv, N2Z.inj_abs_N. destruct (e <? 0)%Z eqn:Ee;
      [apply Z.ltb_lt in Ee | apply Z.ltb_ge in Ee]; lia.
Qed.

(** Reading digits, a point and digits, with or without an exponent. *)
Lemma parse_decimal_point (neg : bool) (ip fp : str) (e : option Z) :
  forallb is_digit ip = true ->
  forallb is_digit fp = true ->
  ip ++ fp <> [] ->
  parse_decimal neg
    (ip ++ "."%char :: fp ++ match e with
                             | None => []
                             | Some e => "e"%char :: exp_str e
                             end)
  = Some (make_float neg ip fp (match e with None => 0 | Some e => e end)).
Proof.
  intros Hi Hf Hne. unfold parse_decimal.
  rewrite span_digits_app by (exact Hi || reflexivity).
  change (Ascii.eqb "." ".") with true. cbv iota.
  rewrite span_digits_app by (exact Hf || now destruct e).
  destruct (ip ++ fp) as [|c0 s0] eqn:E; [contradiction|].
  destruct e as [e|]; [|reflexivity].
  change (Ascii.eqb (c_tolower "e") "e") with true. cbv iota.
  destruct (parse_exponent e) as (eneg & ed0 & ed & -> & -> & He).
  now rewrite He.
Qed.

(** Reading digits and an exponent, without a point. *)
Lemma parse_decimal_exp (neg : bool) (ip : str) (e : Z) :
  forallb is_digit ip = true ->
  ip <> [] ->
  parse_decimal neg (ip ++ "e"%char :: exp_str e) = Some (make_float neg ip [] e).
Proof.
  intros Hi Hne. unfold parse_decimal.
  rewrite span_digits_app by (exact Hi || reflexivity).
  change (Ascii.eqb "e" ".") with false. cbv iota.
  rewrite app_nil_r. destruct ip as [|c0 s0]; [contradiction|].
  change (Ascii.eqb (c_tolower "e") "e") with true. cbv iota.
  destruct (parse_exponent e) as (eneg & ed0 & ed & -> & -> & He).
  now rewrite He.
Qed.

(** Reading digits alone. *)
Lemma parse_decimal_digits (neg : bool) (ip : str) :
  forallb is_digit ip = true ->
  ip <> [] ->
  parse_decimal neg ip = Some (make_float neg ip [] 0).
Proof.
  intros Hi Hne. unfold parse_decimal.
  rewrite span_digits_all by exact Hi.
  rewrite app_nil_r. now destruct ip.
Qed.

(** [float] on a signed rendering that starts with a digit. *)
Lemma float_of_str_plain (neg : bool) (body : str) :
  forallb plain body = true ->
  match body with [] => False | c :: _ => is_digit c = true end ->
  float_of_str (sign_str neg ++ body) = parse_decimal neg body.
Proof.
  intros Hp Hh. unfold float_of_str.
  assert (Hs : forallb plain (sign_str neg ++ body) = true).
  { rewrite forallb_app, Hp. now destruct neg. }
  destruct (plain_str_facts _ Hs) as (_ & _ & -> & -> & _ & _ & Hu).
  unfold without_underscores. rewrite Hu.
  assert (Hsplit : split_sign (sign_str neg ++ body) = (neg, body)).
  { destruct neg; [reflexivity|]. destruct body as [|c body]; [contradiction|].
    cbn [sign_str app]. unfold split_sign.
    destruct c as [[] [] [] [] [] [] [] []]; try discriminate Hh; reflexivity. }
  rewrite Hsplit.
  destruct (plain_str_facts _ Hp) as (_ & _ & _ & _ & _ & -> & _).
  assert (Hin : str_in body [py "inf"; py "infinity"; py "nan"] = false).
  { apply has_digit_not_in; [|reflexivity].
    destruct body as [|c body]; [contradiction|]. simpl. now rewrite Hh. }
  unfold str_in in Hin. cbn [existsb] in Hin.
  apply orb_false_iff in Hin as [H1 Hin]. apply orb_false_iff in Hin as [H2 Hin].
  apply orb_false_iff in Hin as [H3 _]. now rewrite H1, H2, H3.
Qed.

Lemma lstrip_by_repeat (p : ascii -> bool) (z : ascii) (k : nat) (s : str) :
  p z = true -> lstrip_by p (repeat z k ++ s) = lstrip_by p s.
Proof. intro H. induction k as [|k IH]; simpl; [easy|]. now rewrite H. Qed.

Lemma rstrip_by_repeat (p : ascii -> bool) (z : ascii) (k : nat) (s : str) :
  p z = true -> rstrip_by p (s ++ repeat z k) = rstrip_by p s.
Proof.
  intro H. unfold rstrip_by.
  now rewrite rev_app_distr, rev_repeat, lstrip_by_repeat.
Qed.

(** What [canonical_digits] says. *)
Lemma canonical_digits_spec (ds : str) (decpt : Z) :
  canonical_digits ds decpt = true ->
  forallb is_digit ds = true
  /\ ((ds = py "0" /\ decpt = 1%Z)
      \/ (exists d ds', ds = d :: ds' /\ is_zero_chr d = false
                        /\ is_zero_chr (last ds "0"%char) = false)).
Proof.
  unfold canonical_digits. intro H. apply andb_true_iff in H as [Hd H].
  split; [exact Hd|]. destruct ds as [|d ds']; [discriminate|].
  destruct (str_eqb (d :: ds') (py "0")) eqn:E.
  - left. apply str_eqb_eq in E. apply Z.eqb_eq in H. now split.
  - right. apply andb_true_iff in H as [H1 H2].
    exists d, ds'. repeat split; now apply negb_true_iff.
Qed.

(** The float of a literal whose digits are canonical digits between
    zeros. *)
Lemma make_float_canonical (neg : bool) (ip fp ds : str) (e : Z) (k m : nat) :
  (exists d ds', ds = d :: ds' /\ is_zero_chr d = false
                 /\ is_zero_chr (last ds "0"%char) = false) ->
  ip ++ fp = repeat "0"%char k ++ ds ++ repeat "0"%char m ->
  make_float neg ip fp e = FFin neg ds (Z.of_nat (length ip) + e - Z.of_nat k).
Proof.
  intros (d & ds' & Eds & Hd & Hl) E. unfold make_float. rewrite E.
  rewrite lstrip_by_repeat by reflexivity.
  rewrite (lstrip_by_fix is_zero_chr (ds ++ repeat "0"%char m))
    by (rewrite Eds; exact Hd).
  rewrite rstrip_by_repeat by reflexivity.
  rewrite (@rstrip_by_fix is_zero_chr ds "0"%char) by (subst ds; easy || exact Hl).
  rewrite !length_app, repeat_length.
  replace (k + (length ds + length (repeat "0"%char m))
           - (length ds + length (repeat "0"%char m)))%nat with k by lia.
  subst ds. reflexivity.
Qed.

Lemma make_float_zero (neg : bool) (ip fp : str) (e : Z) (k : nat) :
  ip ++ fp = repeat "0"%char k -> make_float neg ip fp e = FFin neg (py "0") 1.
Proof.
  intro E. unfold make_float. rewrite E.
  rewrite <- (app_nil_r (repeat "0"%char k)).
  rewrite lstrip_by_repeat by reflexivity. reflexivity.
Qed.

Lemma char_in_mid (c : ascii) (a b : str) : char_in c (a ++ c :: b) = true.
Proof.
  unfold char_in. rewrite existsb_app. simpl. rewrite Ascii.eqb_refl.
  apply orb_true_r.
Qed.

Lemma forallb_repeat_zero (p : ascii -> bool) (k : nat) :
  p "0"%char = true -> forallb p (repeat "0"%char k) = true.
Proof. intro H. induction k as [|k IH]; simpl; [easy|]. now rewrite H. Qed.

Lemma head_digit_app (a b : str) :
  match a with [] => False | c :: _ => is_digit c = true end ->
  match a ++ b with [] => False | c :: _ => is_digit c = true end.
Proof. now destruct a. Qed.

(** The shape of [repr] on a finite float, and how it reads back. *)
Lemma repr_float_shape (neg : bool) (ds : str) (decpt : Z) :
  canonical_digits ds decpt = true ->
  exists body,
    repr_float (FFin neg ds decpt) = sign_str neg ++ body
    /\ forallb plain body = true
    /\ match body with [] => False | c :: _ => is_digit c = true end
    /\ char_in "." body || char_in "e" body = true
    /\ parse_decimal neg body = Some (FFin neg ds decpt).
Proof.
  intro Hc. destruct (canonical_digits_spec _ _ Hc) as [Hd [[-> ->]|Hnz]].
  - exists (py "0.0"). conjs; reflexivity.
  - pose proof Hnz as (d & ds' & Eds & Hd0 & Hl).
    pose proof (forallb_digit_plain _ Hd) as Hp.
    assert (Hhd : is_digit d = true).
    { rewrite Eds in Hd. simpl in Hd. now apply andb_true_iff in Hd. }
    assert (Hhead : match ds with [] => False | c :: _ => is_digit c = true end)
      by now rewrite Eds.
    unfold repr_float.
    destruct ((decpt <=? -4) || (16 <? decpt))%Z eqn:Eexp;
      [|destruct (decpt <=? 0)%Z eqn:Eneg;
        [|destruct (decpt <? Z.of_nat (length ds))%Z eqn:Emid]].
    + (* exponent notation *)
      rewrite Eds in *. destruct ds' as [|d2 r].
      * exists ([d] ++ "e"%char :: exp_str (decpt - 1)). conjs.
        -- reflexivity.
        -- cbn [app forallb]. rewrite (is_digit_plain _ Hhd). simpl.
           apply exp_str_plain.
        -- exact Hhd.
        -- rewrite (char_in_mid "e" [d]). apply orb_true_r.
        -- rewrite parse_decimal_exp by (exact Hd || discriminate).
           rewrite (@make_float_canonical neg [d] [] [d] (decpt - 1) 0 0)
             by (exact Hnz || reflexivity).
           fin_eq. simpl length. lia.
      * assert (Hr : forallb is_digit (d2 :: r) = true).
        { simpl in Hd. now apply andb_true_iff in Hd. }
        exists ([d] ++ "."%char :: (d2 :: r)
                  ++ match Some (decpt - 1)%Z with
                     | None => []
                     | Some e => "e"%char :: exp_str e
                     end).
        conjs.
        -- reflexivity.
        -- change (forallb plain
                     ([d; "."%char] ++ (d2 :: r) ++ "e"%char :: exp_str (decpt - 1))
                   = true).
           rewrite !forallb_app. rewrite (forallb_digit_plain _ Hr).
           cbn [forallb]. rewrite (is_digit_plain _ Hhd). simpl.
           apply exp_str_plain.
        -- exact Hhd.
        -- now rewrite char_in_mid.
        -- assert (H1 : forallb is_digit [d] = true) by (simpl; now rewrite Hhd).
           assert (H3 : [d] ++ d2 :: r <> []) by discriminate.
           etransitivity;
             [exact (@parse_decimal_point neg [d] (d2 :: r)
                       (Some (decpt - 1)%Z) H1 Hr H3)|].
           cbv iota.
           rewrite (@make_float_canonical neg [d] (d2 :: r) (d :: d2 :: r)
                      (decpt - 1) 0 0)
             by (exact Hnz || (simpl; now rewrite app_nil_r)).
           fin_eq. simpl length. lia.
    + (* the point left of the digits *)
      apply Z.leb_le in Eneg.
      set (j := Z.to_nat (- decpt)).
      assert (Hfp : forallb is_digit (repeat "0"%char j ++ ds) = true).
      { rewrite forallb_app, Hd. now rewrite forallb_repeat_zero. }
      exists (["0"%char] ++ "."%char :: (repeat "0"%char j ++ ds) ++ []). conjs.
      * now rewrite app_nil_r.
      * rewrite app_nil_r. cbn [app forallb].
        now rewrite (forallb_digit_plain _ Hfp).
      * reflexivity.
      * now rewrite char_in_mid.
      * rewrite (@parse_decimal_point neg ["0"%char] (repeat "0"%char j ++ ds) None)
          by (reflexivity || exact Hfp || discriminate).
        cbv iota.
        rewrite (@make_float_canonical neg ["0"%char] (repeat "0"%char j ++ ds) ds
                   0 (S j) 0) by (exact Hnz || (simpl; now rewrite app_nil_r)).
        fin_eq. unfold j. simpl length. lia.
    + (* the point inside the digits *)
      apply Z.leb_gt in Eneg. apply Z.ltb_lt in Emid.
      set (q := Z.to_nat decpt).
      assert (Hq : (0 < q < length ds)%nat) by (unfold q; lia).
      pose proof (firstn_skipn q ds) as Efs.
      assert (Hfs : forallb is_digit (firstn q ds) = true
                    /\ forallb is_digit (skipn q ds) = true).
      { rewrite <- Efs in Hd. rewrite forallb_app in Hd.
        now apply andb_true_iff in Hd. }
      destruct Hfs as [Hfi Hsk].
      assert (Hfh : match firstn q ds with
                    | [] => False
                    | c :: _ => is_digit c = true
                    end).
      { rewrite Eds. destruct q as [|q']; [lia|]. exact Hhd. }
      exists (firstn q ds ++ "."%char :: skipn q ds ++ []). conjs.
      * now rewrite app_nil_r.
      * rewrite app_nil_r, forallb_app. rewrite (forallb_digit_plain _ Hfi).
        cbn [forallb]. now rewrite (forallb_digit_plain _ Hsk).
      * now apply head_digit_app.
      * now rewrite char_in_mid.
      * rewrite (@parse_decimal_point neg (firstn q ds) (skipn q ds) None);
          [|exact Hfi|exact Hsk|rewrite Efs, Eds; discriminate].
        cbv iota.
        rewrite (@make_float_canonical neg (firstn q ds) (skipn q ds) ds 0 0 0)
          by (exact Hnz || (rewrite Efs; simpl; now rewrite app_nil_r)).
        fin_eq. rewrite length_firstn. unfold q in *. lia.
    + (* the point right of the digits *)
      apply Z.leb_gt in Eneg. apply Z.ltb_ge in Emid.
      set (j := (Z.to_nat decpt - length ds)%nat).
      assert (Hip : forallb is_digit (ds ++ repeat "0"%char j) = true).
      { rewrite forallb_app, Hd. now rewrite forallb_repeat_zero. }
      exists ((ds ++ repeat "0"%char j) ++ "."%char :: ["0"%char] ++ []). conjs.
      * now rewrite <- app_assoc.
      * rewrite forallb_app. now rewrite (forallb_digit_plain _ Hip).
      * now apply head_digit_app, head_digit_app.
      * now rewrite char_in_mid.
      * rewrite (@parse_decimal_point neg (ds ++ repeat "0"%char j) ["0"%char] None);
          [|exact Hip|reflexivity|rewrite Eds; discriminate].
        cbv iota.
        rewrite (@make_float_canonical neg (ds ++ repeat "0"%char j) ["0"%char] ds
                   0 0 (S j)).
        -- fin_eq. rewrite length_app, repeat_length. unfold j. lia.
        -- exact Hnz.
        -- rewrite <- app_assoc. simpl. f_equal.
           change ("0"%char :: repeat "0"%char j) with (repeat "0"%char (S j)).
           now rewrite <- repeat_cons.
Qed.

(** [float(repr(x)) == x] for a finite [x]. *)
Lemma float_of_str_repr (neg : bool) (ds : str) (decpt : Z) :
  canonical_digits ds decpt = true ->
  float_of_str (repr_float (FFin neg ds decpt)) = Some (FFin neg ds decpt).
Proof.
  intro Hc. destruct (@repr_float_shape neg ds decpt Hc) as (body & -> & Hp & Hh & _ & E).
  now rewrite float_of_str_plain.
Qed.

(** ** The default rules on values that are not strings *)

Lemma str_of_int_sign (z : Z) :
  str_of_int z = sign_str (z <? 0)%Z ++ digits (Z.abs_N z).
Proof. unfold str_of_int. now destruct (z <? 0)%Z. Qed.

Lemma float_of_str_of_int (z : Z) : exists f, float_of_str (str_of_int z) = Some f.
Proof.
  rewrite str_of_int_sign. destruct (digits_spec (Z.abs_N z)) as (Hne & Hd & _).
  rewrite float_of_str_plain.
  - rewrite parse_decimal_digits by assumption. eauto.
  - now apply forallb_digit_plain.
  - destruct (digits (Z.abs_N z)) as [|c ds]; [contradiction|].
    simpl in Hd. now apply andb_true_iff in Hd.
Qed.

Lemma str_of_int_no_point (z : Z) :
  char_in "." (str_of_int z) = false /\ char_in "e" (str_of_int z) = false.
Proof.
  assert (H : forall c, In c (str_of_int z) ->
                        Ascii.eqb "." c = false /\ Ascii.eqb "e" c = false).
  { intros c Hc. rewrite str_of_int_sign in Hc. apply in_app_or in Hc as [Hc|Hc].
    - destruct (z <? 0)%Z; [|contradiction]. destruct Hc as [<-|[]]. now split.
    - destruct (digits_spec (Z.abs_N z)) as (_ & Hd & _).
      rewrite forallb_forall in Hd. specialize (Hd c Hc).
      destruct c as [[] [] [] [] [] [] [] []]; try discriminate Hd; now split. }
  unfold char_in. split.
  - destruct (existsb (Ascii.eqb ".") (str_of_int z)) eqn:E; [|reflexivity].
    apply existsb_exists in E as (c & Hc & Ec). destruct (H c Hc). congruence.
  - destruct (existsb (Ascii.eqb "e") (str_of_int z)) eqn:E; [|reflexivity].
    apply existsb_exists in E as (c & Hc & Ec). destruct (H c Hc). congruence.
Qed.

(** The default rules on a value whose rendering by the first rule is a
    number rendering that [float] reads. *)
Lemma default_result_rendering (v : value) (s : str) (f : float) :
  Transforms._normalize_column_name v = s ->
  forallb plain s = true ->
  existsb is_digit s = true ->
  float_of_str s = Some f ->
  default_result v
  = if negb (char_in "." s) && negb (char_in "e" s) then
      match int_of_str s with
      | Some z => VInt z
      | None => VStr s
      end
    else VFloat f.
Proof.
  intros Hn Hp Hd Hf. unfold default_result. rewrite Hn. cbv zeta.
  destruct (plain_str_facts _ Hp) as (Hstrip & Hlow & _).
  unfold Transforms._handle_nulls. rewrite Hstrip.
  rewrite has_digit_not_in by (exact Hd || reflexivity).
  unfold Transforms._is_numeric_string. rewrite Hf.
  unfold Transforms._convert_numeric. rewrite Hstrip, Hlow, Hf.
  destruct s as [|c s]; [discriminate|]. reflexivity.
Qed.

Lemma default_result_int (z : Z) : default_result (VInt z) = VInt z.
Proof.
  destruct (float_of_str_of_int z) as [f Hf].
  rewrite (@default_result_rendering (VInt z) (str_of_int z) f);
    [|reflexivity|apply str_of_int_plain|apply str_of_int_has_digit|exact Hf].
  destruct (str_of_int_no_point z) as [-> ->]. cbn [negb andb].
  now rewrite int_of_str_of_int.
Qed.

Lemma default_result_float (neg : bool) (ds : str) (decpt : Z) :
  canonical_digits ds decpt = true ->
  default_result (VFloat (FFin neg ds decpt)) = VFloat (FFin neg ds decpt).
Proof.
  intro Hc.
  pose proof (@float_of_str_repr neg ds decpt Hc) as Hf.
  destruct (@repr_float_shape neg ds decpt Hc) as (body & E & Hp & Hh & Hpe & _).
  assert (Hps : forallb plain (repr_float (FFin neg ds decpt)) = true).
  { rewrite E, forallb_app, Hp. now destruct neg. }
  assert (Hds : existsb is_digit (repr_float (FFin neg ds decpt)) = true).
  { rewrite E, existsb_app. destruct body as [|c body]; [contradiction|].
    simpl. rewrite Hh. apply orb_true_r. }
  rewrite (@default_result_rendering (VFloat (FFin neg ds decpt))
             (repr_float (FFin neg ds decpt)) (FFin neg ds decpt) eq_refl Hps Hds Hf).
  rewrite E. unfold char_in in *. rewrite !existsb_app.
  apply orb_true_iff in Hpe as [H|H]; rewrite H;
    rewrite ?orb_true_r; cbn [negb andb]; rewrite ?andb_false_r; reflexivity.
Qed.

(** C5, as the code has it. The first default rule replaces a value that
    is not a string by its rendering [str(v)]; so, with the default rules
    only, a null field becomes the string ["None"] and a boolean the string
    ["True"] or ["False"], while an integer and a finite float come back as
    the number they were.  A NaN becomes null and an infinity the string
    ["inf"] or ["-inf"]. *)
Theorem default_rules_on_non_strings :
  (forall (key : str) (v : value),
      match v with VStr _ => False | _ => True end ->
      exists rule later,
        Transforms.init = rule :: later
        /\ Transforms.apply_rule key rule v = (Ok (VStr (str_of v)), []))
  /\ (forall k : str,
         fst (Transforms.transform_record Transforms.init [(k, VNone)])
         = Ok [(Transforms._normalize_column_name (VStr k), VStr (py "None"))])
  /\ (forall (k : str) (b : bool),
         fst (Transforms.transform_record Transforms.init [(k, VBool b)])
         = Ok [(Transforms._normalize_column_name (VStr k),
                VStr (if b then py "True" else py "False"))])
  /\ (forall (k : str) (z : Z),
         fst (Transforms.transform_record Transforms.init [(k, VInt z)])
         = Ok [(Transforms._normalize_column_name (VStr k), VInt z)])
  /\ (forall (k : str) (f : float),
         is_finite f = true -> float_ok f = true ->
         fst (Transforms.transform_record Transforms.init [(k, VFloat f)])
         = Ok [(Transforms._normalize_column_name (VStr k), VFloat f)])
  /\ (forall k : str,
         fst (Transforms.transform_record Transforms.init [(k, VFloat FNan)])
         = Ok [(Transforms._normalize_column_name (VStr k), VNone)])
  /\ (forall (k : str) (neg : bool),
         fst (Transforms.transform_record Transforms.init [(k, VFloat (FInf neg))])
         = Ok [(Transforms._normalize_column_name (VStr k),
                VStr (sign_str neg ++ py "inf"))]).
Proof.
  conjs.
  - intros key v Hv. eexists. eexists. split; [reflexivity|].
    destruct v as [| | | |s]; [reflexivity..|contradiction].
  - intro k. now rewrite transform_record_default_single.
  - intros k b. rewrite transform_record_default_single. now destruct b.
  - intros k z. now rewrite transform_record_default_single, default_result_int.
  - intros k [| |neg ds decpt] Hfin Hok; try discriminate.
    now rewrite transform_record_default_single, default_result_float.
  - intro k. now rewrite transform_record_default_single.
  - intros k neg. rewrite transform_record_default_single. now destruct neg.
Qed.

(** The floats 2.3 and 1e+16 come back. *)
Lemma default_rules_on_non_strings_witness :
  fst (Transforms.transform_record Transforms.init
         [(py "pl_masse", VFloat (FFin false (py "23") 1))])
  = Ok [(py "pl_masse", VFloat (FFin false (py "23") 1))]
  /\ fst (Transforms.transform_record Transforms.init
            [(py "sy_dist", VFloat (FFin false (py "1") 17))])
     = Ok [(py "sy_dist", VFloat (FFin false (py "1") 17))].
Proof.
  destruct default_rules_on_non_strings as (_ & _ & _ & _ & H & _).
  split.
  - exact (H (py "pl_masse") (FFin false (py "23") 1) eq_refl eq_refl).
  - exact (H (py "sy_dist") (FFin false (py "1") 17) eq_refl eq_refl).
Defined.

(** C5 as stated fails on floats: a NaN does not come back as a number but
    as null, and an infinity comes back as a string. *)
Lemma nan_and_inf_do_not_round_trip :
  fst (Transforms.transform_record Transforms.init [(py "x", VFloat FNan)])
  = Ok [(py "x", VNone)]
  /\ fst (Transforms.transform_record Transforms.init [(py "x", VFloat (FInf false))])
     = Ok [(py "x", VStr (py "inf"))]
  /\ fst (Transforms.transform_record Transforms.init [(py "x", VFloat (FInf true))])
     = Ok [(py "x", VStr (py "-inf"))].
Proof. repeat split. Qed.

(** * Further properties *)

Unset Implicit Arguments.

(** ** The query builder: chains of conditions *)

Lemma set_where_set_where (l1 l2 : list str) (b : QueryBuilder.t) :
  QueryBuilder.set_where l1 (QueryBuilder.set_where l2 b) = QueryBuilder.set_where l1 b.
Proof. reflexivity. Qed.

Lemma set_where_conditions (b : QueryBuilder.t) :
  QueryBuilder.set_where (QueryBuilder._where_conditions b) b = b.
Proof. now destruct b. Qed.

(** A convenience call is [and_where_or_where] on its condition. *)
Lemma call_convenience (c : condition_call) (text : str) (b : QueryBuilder.t) :
  condition_text c = Some text -> call c b = QueryBuilder.and_where_or_where text b.
Proof.
  destruct c as [| | | | |? ? []| | |[]| | | | | |]; simpl; intro H;
    try discriminate H; injection H as <-; reflexivity.
Qed.

(** What a condition-adding call makes of the stored list. *)
Lemma call_on_conditions (c : condition_call) (l : list str) (b : QueryBuilder.t) :
  call c (QueryBuilder.set_where l b)
  = QueryBuilder.set_where
      match condition_text c with
      | Some text => match l with [] => [text] | _ :: _ => l ++ [py "AND " ++ text] end
      | None =>
          match c with
          | Where condition => [condition]
          | AndWhere condition => l ++ [py "AND " ++ condition]
          | OrWhere condition => l ++ [py "OR " ++ condition]
          | _ => l
          end
      end b.
Proof.
  destruct (condition_text c) as [text|] eqn:E.
  - rewrite (call_convenience c text _ E).
    unfold QueryBuilder.and_where_or_where. now destruct l.
  - destruct c as [| | | | |? ? []| | |[]| | | | | |]; try discriminate E; reflexivity.
Qed.

Lemma calls_cons (c : condition_call) (cs : list condition_call) (b : QueryBuilder.t) :
  calls (c :: cs) b = calls cs (call c b).
Proof. reflexivity. Qed.

(** Convenience calls on a list that is not empty append with [AND ]. *)
Lemma calls_convenience_append (cs : list condition_call) (texts l : list str)
    (b : QueryBuilder.t) :
  map condition_text cs = map Some texts ->
  l <> [] ->
  calls cs (QueryBuilder.set_where l b)
  = QueryBuilder.set_where (l ++ map (app (py "AND ")) texts) b.
Proof.
  revert texts l. induction cs as [|c cs IH]; intros [|t0 texts] l Hm Hl;
    try discriminate Hm.
  - simpl. now rewrite app_nil_r.
  - cbn [map] in Hm. injection Hm as Hc Hm.
    rewrite calls_cons, call_on_conditions, Hc.
    assert (E : match l with [] => [t0] | _ :: _ => l ++ [py "AND " ++ t0] end
                = l ++ [py "AND " ++ t0]) by now destruct l.
    rewrite E, (IH texts) by (exact Hm || now destruct l).
    now rewrite <- app_assoc.
Qed.

Lemma join_and_prefixed (t0 : str) (ts : list str) :
  join (py " ") (t0 :: map (app (py "AND ")) ts) = join (py " AND ") (t0 :: ts).
Proof.
  revert t0. induction ts as [|t1 ts IH]; intro t0; [reflexivity|].
  cbn [map]. rewrite (join_cons (py " ")), (join_cons (py " AND ")).
  f_equal. rewrite IH.
  change (py " AND " ++ join (py " AND ") (t1 :: ts))
    with (py " " ++ py "AND " ++ join (py " AND ") (t1 :: ts)).
  f_equal. rewrite (join_cons (py " AND ") (py "AND " ++ t1)), (join_cons (py " AND ") t1).
  now rewrite <- app_assoc.
Qed.

(** What [build] puts after [WHERE ] when the first stored element has no
    prefix. *)
Lemma where_clause_plain (c : str) (rest : list str) :
  unprefixed c -> QueryBuilder.where_clause c rest = join (py " ") (c :: rest).
Proof.
  intros [Ha Ho]. unfold QueryBuilder.where_clause. rewrite Ha, Ho.
  now destruct rest.
Qed.

(** X1. Convenience predicates called one after the other on a builder
    without conditions store the first condition bare and each later one
    behind [AND ]; in the query they appear joined by [ AND ], whatever the
    other clauses are. *)
Theorem convenience_chain_joined_by_and :
  forall (c : condition_call) (cs : list condition_call) (t0 : str) (ts : list str)
         (b : QueryBuilder.t),
    QueryBuilder._where_conditions b = [] ->
    map condition_text (c :: cs) = map Some (t0 :: ts) ->
    unprefixed t0 ->
    QueryBuilder._where_conditions (calls (c :: cs) b)
    = t0 :: map (app (py "AND ")) ts
    /\ forall table,
        In (py "WHERE " ++ join (py " AND ") (t0 :: ts))
          (QueryBuilder.query_parts (calls (c :: cs) b) table).
Proof.
  intros c cs t0 ts b Hb Hm Hu. cbn [map] in Hm. injection Hm as Hc Hm.
  assert (E : calls (c :: cs) b
              = QueryBuilder.set_where (t0 :: map (app (py "AND ")) ts) b).
  { rewrite calls_cons, (call_convenience c t0 b Hc).
    unfold QueryBuilder.and_where_or_where. rewrite Hb.
    unfold QueryBuilder.where_.
    rewrite (calls_convenience_append cs ts [t0] b Hm); [reflexivity|discriminate]. }
  rewrite E. split; [reflexivity|].
  intro table. unfold QueryBuilder.query_parts.
  apply in_or_app. right. apply in_or_app. right. apply in_or_app. left.
  cbn [QueryBuilder._where_conditions QueryBuilder.set_where].
  rewrite where_clause_plain by exact Hu. rewrite join_and_prefixed. now left.
Qed.

Lemma convenience_chain_joined_by_and_witness :
  fst (QueryBuilder.build
         (calls [WhereConfirmed; WhereDefaultFlag; WhereHasMass]
            (QueryBuilder.from_table (inl (py "ps"))
               (QueryBuilder.select (inl (py "pl_name")) QueryBuilder.init))))
  = Ok (py "SELECT pl_name FROM ps WHERE upper(soltype) like upper('%CONF%') AND default_flag=1 AND pl_masse > 0")
  /\ In (py "WHERE upper(soltype) like upper('%CONF%') AND default_flag=1 AND pl_masse > 0")
       (QueryBuilder.query_parts
          (calls [WhereConfirmed; WhereDefaultFlag; WhereHasMass]
             (QueryBuilder.from_table (inl (py "ps"))
                (QueryBuilder.select (inl (py "pl_name")) QueryBuilder.init)))
          (py "ps")).
Proof.
  split; [reflexivity|].
  apply (convenience_chain_joined_by_and WhereConfirmed
           [WhereDefaultFlag; WhereHasMass]
           (py "upper(soltype) like upper('%CONF%')")
           [py "default_flag=1"; py "pl_masse > 0"]
           (QueryBuilder.from_table (inl (py "ps"))
              (QueryBuilder.select (inl (py "pl_name")) QueryBuilder.init))
           eq_refl eq_refl (conj eq_refl eq_refl)).
Defined.

(** The two ways of starting a condition list, and what the calls after
    make of them. *)
Lemma calls_related (c : str) (cs : list condition_call) (l1 l2 : list str)
    (b : QueryBuilder.t) :
  l1 = l2 \/ (exists rest, l1 = (py "AND " ++ c) :: rest /\ l2 = c :: rest) ->
  exists l1' l2',
    calls cs (QueryBuilder.set_where l1 b) = QueryBuilder.set_where l1' b
    /\ calls cs (QueryBuilder.set_where l2 b) = QueryBuilder.set_where l2' b
    /\ (l1' = l2' \/ (exists rest, l1' = (py "AND " ++ c) :: rest /\ l2' = c :: rest)).
Proof.
  revert l1 l2. induction cs as [|x cs IH]; intros l1 l2 H.
  - exists l1, l2. now repeat split.
  - rewrite !calls_cons, !call_on_conditions. apply IH.
    destruct H as [->|(rest & -> & ->)]; [now left|].
    destruct (condition_text x) as [text|].
    + right. eexists. split; reflexivity.
    + destruct x; try (now left); right; eexists; split; reflexivity.
Qed.

(** X2. Starting a condition list with [and_where(c)] or with [where(c)]
    (what a convenience predicate does on an empty list) stores different
    elements, but the query built after any further condition-adding calls
    is the same. *)
Theorem and_where_first_same_query :
  forall (c : str) (cs : list condition_call) (b : QueryBuilder.t),
    QueryBuilder._where_conditions b = [] ->
    unprefixed c ->
    QueryBuilder._where_conditions (QueryBuilder.and_where c b) = [py "AND " ++ c]
    /\ QueryBuilder._where_conditions (QueryBuilder.where_ c b) = [c]
    /\ fst (QueryBuilder.build (calls cs (QueryBuilder.and_where c b)))
       = fst (QueryBuilder.build (calls cs (QueryBuilder.where_ c b))).
Proof.
  intros c cs b Hb Hu. split; [|split; [reflexivity|]].
  - unfold QueryBuilder.and_where. now rewrite Hb.
  - unfold QueryBuilder.and_where, QueryBuilder.where_. rewrite Hb. cbn [app].
    destruct (calls_related c cs [py "AND " ++ c] [c] b) as (l1 & l2 & -> & -> & H).
    { right. now exists []. }
    destruct H as [->|(rest & -> & ->)]; [reflexivity|].
    unfold QueryBuilder.build. cbn [fst].
    cbn [QueryBuilder._select_columns QueryBuilder._from_table QueryBuilder.set_where].
    destruct (QueryBuilder._select_columns b); [reflexivity|].
    destruct (QueryBuilder._from_table b) as [[|t0 table]|]; try reflexivity.
    unfold QueryBuilder.query_parts.
    cbn [QueryBuilder._select_columns QueryBuilder._from_table QueryBuilder.set_where
         QueryBuilder._where_conditions QueryBuilder._limit_count
         QueryBuilder._group_by_columns QueryBuilder._having_condition
         QueryBuilder._order_by_clause].
    now rewrite where_clause_and, where_clause_plain.
Qed.

Lemma and_where_first_same_query_witness :
  fst (QueryBuilder.build
         (calls [WhereHasMass; OrWhere (py "pl_rade > 0")]
            (QueryBuilder.and_where (py "default_flag=1")
               (QueryBuilder.from_table (inl (py "ps"))
                  (QueryBuilder.select (inl (py "*")) QueryBuilder.init)))))
  = fst (QueryBuilder.build
           (calls [WhereHasMass; OrWhere (py "pl_rade > 0")]
              (QueryBuilder.where_ (py "default_flag=1")
                 (QueryBuilder.from_table (inl (py "ps"))
                    (QueryBuilder.select (inl (py "*")) QueryBuilder.init))))).
Proof.
  apply (and_where_first_same_query (py "default_flag=1")
           [WhereHasMass; OrWhere (py "pl_rade > 0")]
           (QueryBuilder.from_table (inl (py "ps"))
              (QueryBuilder.select (inl (py "*")) QueryBuilder.init))
           eq_refl (conj eq_refl eq_refl)).
Defined.

(** ** The query builder: the shape of the query *)

(** The parts of a query: the select part, the from part, the others. *)
Lemma query_parts_shape (b : QueryBuilder.t) (table : str) :
  exists cols rest,
    QueryBuilder.query_parts b table
    = (py "SELECT " ++ cols) :: (py "FROM " ++ table) :: rest
    /\ cols = match QueryBuilder._limit_count b with
              | Some n =>
                  if (n =? 0)%Z then join (py ",") (QueryBuilder._select_columns b)
                  else py "TOP " ++ str_of_int n ++ py " "
                         ++ join (py ",") (QueryBuilder._select_columns b)
              | None => join (py ",") (QueryBuilder._select_columns b)
              end.
Proof.
  unfold QueryBuilder.query_parts.
  destruct (QueryBuilder._limit_count b) as [n|]; [destruct (n =? 0)%Z|];
    eexists; eexists; (split; [|reflexivity]); reflexivity.
Qed.

(** When [build] succeeds, what it returns and which table it names. *)
Lemma build_ok (b : QueryBuilder.t) (out : str) :
  fst (QueryBuilder.build b) = Ok out ->
  exists table,
    QueryBuilder._from_table b = Some table
    /\ out = join (py " ") (QueryBuilder.query_parts b table).
Proof.
  intro H. pose proof (build_outcome b) as Hb.
  destruct (QueryBuilder._select_columns b) as [|c cols];
    destruct (QueryBuilder._from_table b) as [[|t0 table]|]; cbn iota in Hb.
  1-4, 6: destruct Hb as [msg Hm]; rewrite Hm in H; discriminate H.
  rewrite Hb in H. injection H as <-. now exists (t0 :: table).
Qed.

(** X3. Whenever [build] succeeds, the query starts with [SELECT ] and
    contains [ FROM ] followed by the table that was set. *)
Theorem build_select_from :
  forall (b : QueryBuilder.t) (out : str),
    fst (QueryBuilder.build b) = Ok out ->
    startswith out (py "SELECT ") = true
    /\ exists table,
        QueryBuilder._from_table b = Some table
        /\ contains out (py " FROM " ++ table) = true.
Proof.
  intros b out H. destruct (build_ok b out H) as (table & Ht & ->).
  destruct (query_parts_shape b table) as (cols & rest & -> & _).
  assert (E : join (py " ") ((py "SELECT " ++ cols) :: (py "FROM " ++ table) :: rest)
              = (py "SELECT " ++ cols)
                  ++ (py " FROM " ++ table)
                  ++ match rest with [] => [] | _ :: _ => py " " ++ join (py " ") rest end).
  { rewrite join_cons, join_cons. now rewrite <- !app_assoc. }
  rewrite E. split.
  - rewrite <- app_assoc. apply startswith_app.
  - exists table. split; [exact Ht|]. apply contains_infix.
Qed.

Lemma build_select_from_witness :
  startswith (py "SELECT pl_name,pl_masse FROM ps") (py "SELECT ") = true
  /\ exists table,
      QueryBuilder._from_table
        (QueryBuilder.from_table (inr Models.PLANETARY_SYSTEMS)
           (QueryBuilder.select (inr [py "pl_name"; py "pl_masse"]) QueryBuilder.init))
      = Some table
      /\ contains (py "SELECT pl_name,pl_masse FROM ps") (py " FROM " ++ table) = true.
Proof.
  apply (build_select_from
           (QueryBuilder.from_table (inr Models.PLANETARY_SYSTEMS)
              (QueryBuilder.select (inr [py "pl_name"; py "pl_masse"]) QueryBuilder.init))
           (py "SELECT pl_name,pl_masse FROM ps") eq_refl).
Defined.

(** X4. [limit(n)] with [n] other than zero makes the query start with
    [SELECT TOP n ]; [limit(0)] on a builder without a limit changes nothing
    in the query; and no [limit] touches any part of the query after the
    select part, so no trailing clause is ever added. *)
Theorem limit_is_a_top_prefix :
  forall (n : Z) (b : QueryBuilder.t),
    (n <> 0%Z ->
     forall out,
       fst (QueryBuilder.build (QueryBuilder.limit n b)) = Ok out ->
       startswith out (py "SELECT TOP " ++ str_of_int n ++ py " ") = true)
    /\ (QueryBuilder._limit_count b = None ->
        fst (QueryBuilder.build (QueryBuilder.limit 0 b)) = fst (QueryBuilder.build b))
    /\ (forall table,
           tl (QueryBuilder.query_parts (QueryBuilder.limit n b) table)
           = tl (QueryBuilder.query_parts b table)).
Proof.
  intros n b. conjs.
  - intros Hn out H. destruct (build_ok _ out H) as (table & _ & ->).
    destruct (query_parts_shape (QueryBuilder.limit n b) table) as (cols & rest & -> & Hc).
    cbn [QueryBuilder._limit_count QueryBuilder.limit] in Hc.
    apply Z.eqb_neq in Hn. rewrite Hn in Hc. rewrite Hc, join_cons.
    change (py "SELECT " ++ py "TOP " ++ str_of_int n ++ py " "
              ++ join (py ",") (QueryBuilder._select_columns (QueryBuilder.limit n b)))
      with (py "SELECT TOP " ++ str_of_int n ++ py " "
              ++ join (py ",") (QueryBuilder._select_columns (QueryBuilder.limit n b))).
    rewrite <- !app_assoc.
    rewrite (app_assoc (py "SELECT TOP ")), (app_assoc (py "SELECT TOP " ++ str_of_int n)).
    rewrite <- (app_assoc (py "SELECT TOP ")).
    apply startswith_app.
  - intro Hl. unfold QueryBuilder.build, QueryBuilder.query_parts. cbn [fst].
    cbn [QueryBuilder.limit QueryBuilder._select_columns QueryBuilder._from_table
         QueryBuilder._limit_count QueryBuilder._where_conditions
         QueryBuilder._group_by_columns QueryBuilder._having_condition
         QueryBuilder._order_by_clause].
    rewrite Hl. reflexivity.
  - intro table. reflexivity.
Qed.

Lemma limit_is_a_top_prefix_witness :
  startswith (py "SELECT TOP 10 a,b FROM ps") (py "SELECT TOP " ++ str_of_int 10 ++ py " ")
  = true
  /\ fst (QueryBuilder.build
            (QueryBuilder.limit 0
               (QueryBuilder.from_table (inl (py "ps"))
                  (QueryBuilder.select (inr [py "a"; py "b"]) QueryBuilder.init))))
     = fst (QueryBuilder.build
              (QueryBuilder.from_table (inl (py "ps"))
                 (QueryBuilder.select (inr [py "a"; py "b"]) QueryBuilder.init))).
Proof.
  split.
  - apply (proj1 (limit_is_a_top_prefix 10
                    (QueryBuilder.from_table (inl (py "ps"))
                       (QueryBuilder.select (inr [py "a"; py "b"]) QueryBuilder.init))));
      [discriminate | reflexivity].
  - apply (proj1 (proj2 (limit_is_a_top_prefix 10
                           (QueryBuilder.from_table (inl (py "ps"))
                              (QueryBuilder.select (inr [py "a"; py "b"])
                                 QueryBuilder.init))))).
    reflexivity.
Defined.

Lemma replace_char_spec (a b : ascii) (s : str) :
  a <> b -> char_in a (replace_char a b s) = false
            /\ length (replace_char a b s) = length s.
Proof.
  intro Hab. unfold replace_char, char_in. split; [|apply length_map].
  induction s as [|c s IH]; [reflexivity|]. cbn [map existsb]. rewrite IH.
  destruct (Ascii.eqb c a) eqn:E.
  - apply Ascii.eqb_neq in Hab. now rewrite Hab.
  - rewrite Ascii.eqb_sym, E. reflexivity.
Qed.

(** X5. What [to_url_encoded] returns never holds a blank and is as long
    as the query [build] returns; it raises what [build] raises. *)
Theorem to_url_encoded_no_blank :
  forall b : QueryBuilder.t,
    match fst (QueryBuilder.build b) with
    | Ok q =>
        exists out,
          fst (QueryBuilder.to_url_encoded b) = Ok out
          /\ char_in " " out = false
          /\ length out = length q
    | Raise e => fst (QueryBuilder.to_url_encoded b) = Raise e
    end.
Proof.
  intro b. unfold QueryBuilder.to_url_encoded.
  destruct (QueryBuilder.build b) as [[q|e] b']; cbn [fst]; [|reflexivity].
  exists (replace_char " " "+" q). split; [reflexivity|].
  apply replace_char_spec. discriminate.
Qed.

(** ** [builder/utils.py] *)

Lemma forallb_flat_map (A : Type) (p : ascii -> bool) (f : A -> list ascii) (l : list A) :
  (forall x, forallb p (f x) = true) -> forallb p (flat_map f l) = true.
Proof.
  intro H. induction l as [|x l IH]; [reflexivity|].
  cbn [flat_map]. now rewrite forallb_app, H, IH.
Qed.

(** What [quote] with the safe characters [+,=] makes of one byte. *)
Lemma quote_byte_url_char (b : ascii) :
  forallb url_char
    (if Utils.always_safe b || ((code b <? 128)%N && char_in b (py "+,="))
     then [b]
     else ["%"%char; Utils.hex_digit (code b / 16); Utils.hex_digit (code b mod 16)])
  = true.
Proof. destruct b as [[] [] [] [] [] [] [] []]; reflexivity. Qed.

(** X6. Whatever the query, [url_encode_query] returns letters, digits
    and the characters [_.-~+,=%] only; in particular no blank. *)
Theorem url_encode_query_alphabet :
  forall query : str,
    forallb url_char (Utils.url_encode_query query) = true
    /\ char_in " " (Utils.url_encode_query query) = false.
Proof.
  intro query.
  assert (H : forallb url_char (Utils.url_encode_query query) = true).
  { unfold Utils.url_encode_query, Utils.quote.
    apply forallb_flat_map. exact quote_byte_url_char. }
  split; [exact H|].
  unfold char_in.
  destruct (existsb (Ascii.eqb " ") (Utils.url_encode_query query)) eqn:E;
    [|reflexivity].
  apply existsb_exists in E as (c & Hc & Ec). apply Ascii.eqb_eq in Ec. subst c.
  rewrite forallb_forall in H. specialize (H _ Hc). discriminate H.
Qed.

(** X7. [url_encode_query] does not tell a blank from a plus sign: a
    query and the same query with its blanks written as [+] are encoded
    alike, so the query cannot be recovered from its encoding. *)
Theorem url_encode_query_conflates_blank_and_plus :
  (forall query : str,
      Utils.url_encode_query (replace_char " " "+" query) = Utils.url_encode_query query)
  /\ Utils.url_encode_query (py "a b") = Utils.url_encode_query (py "a+b")
  /\ py "a b" <> py "a+b".
Proof.
  conjs.
  - intro query. unfold Utils.url_encode_query. f_equal.
    unfold replace_char. rewrite map_map. apply map_ext.
    intro c. destruct (Ascii.eqb c " ") eqn:E; [reflexivity|]. now rewrite E.
  - reflexivity.
  - discriminate.
Qed.

Lemma escape_sql_string_cons (c : ascii) (s : str) :
  Utils.escape_sql_string (c :: s)
  = if Ascii.eqb c "'" then "'"%char :: "'"%char :: Utils.escape_sql_string s
    else c :: Utils.escape_sql_string s.
Proof.
  unfold Utils.escape_sql_string, replace_char_with. cbn [flat_map].
  now destruct (Ascii.eqb c "'").
Qed.

(** X8. [escape_sql_string] loses nothing: two values with the same
    escaped form are the same value; and the escaped form is longer by one
    character for every quote of the value. *)
Theorem escape_sql_string_injective :
  (forall a b : str,
      Utils.escape_sql_string a = Utils.escape_sql_string b -> a = b)
  /\ (forall s : str,
         length (Utils.escape_sql_string s)
         = (length s + length (filter (Ascii.eqb "'") s))%nat).
Proof.
  split.
  - induction a as [|c a IH]; intros [|d b] H.
    + reflexivity.
    + rewrite escape_sql_string_cons in H.
      destruct (Ascii.eqb d "'"); discriminate H.
    + rewrite escape_sql_string_cons in H.
      destruct (Ascii.eqb c "'"); discriminate H.
    + rewrite !escape_sql_string_cons in H.
      destruct (Ascii.eqb c "'") eqn:Ec; destruct (Ascii.eqb d "'") eqn:Ed.
      * apply Ascii.eqb_eq in Ec, Ed. subst. injection H as H. f_equal. now apply IH.
      * injection H as H1 H2. subst d. discriminate Ed.
      * injection H as H1 H2. subst c. discriminate Ec.
      * injection H as H1 H2. subst. f_equal. now apply IH.
  - induction s as [|c s IH]; [reflexivity|].
    rewrite escape_sql_string_cons. cbn [filter length].
    rewrite (Ascii.eqb_sym "'" c).
    destruct (Ascii.eqb c "'"); cbn [length]; rewrite IH; lia.
Qed.

Lemma escape_sql_string_injective_witness :
  Utils.escape_sql_string (py "O'Neil") = py "O''Neil"
  /\ py "O'Neil" = py "O'Neil".
Proof.
  split; [reflexivity|].
  apply (proj1 escape_sql_string_injective (py "O'Neil") (py "O'Neil")).
  reflexivity.
Defined.

(** Whether [build_constraint_list] keeps a condition. *)
Lemma kept_condition (cond : str) :
  match cond with
  | [] => false
  | _ :: _ => match strip cond with [] => false | _ :: _ => true end
  end = match strip cond with [] => false | _ :: _ => true end.
Proof. now destruct cond. Qed.

(** X9. [build_constraint_list] passes over every condition that is empty
    or blank: such a condition changes nothing wherever it stands, a list of
    such conditions gives the empty string, and conditions that are not
    blank are stripped and joined by [ AND ]. *)
Theorem build_constraint_list_skips_blanks :
  (forall (xs ys : list str) (c : str),
      strip c = [] ->
      Utils.build_constraint_list (xs ++ c :: ys) = Utils.build_constraint_list (xs ++ ys))
  /\ (forall cs : list str,
         Forall (fun c => strip c = []) cs -> Utils.build_constraint_list cs = [])
  /\ (forall cs : list str,
         Forall (fun c => strip c <> []) cs ->
         Utils.build_constraint_list cs = join (py " AND ") (map strip cs)).
Proof.
  conjs.
  - intros xs ys c Hc. unfold Utils.build_constraint_list.
    rewrite !filter_app. cbn [filter]. rewrite kept_condition, Hc. reflexivity.
  - intros cs H. unfold Utils.build_constraint_list.
    replace (filter _ cs) with (@nil str); [reflexivity|].
    induction H as [|c cs Hc _ IH]; [reflexivity|].
    cbn [filter]. rewrite kept_condition, Hc. exact IH.
  - intros cs H. unfold Utils.build_constraint_list.
    replace (filter _ cs) with cs.
    + now destruct (map strip cs).
    + induction H as [|c cs Hc _ IH]; [reflexivity|].
      cbn [filter]. rewrite kept_condition.
      destruct (strip c); [contradiction|]. now f_equal.
Qed.

Lemma build_constraint_list_skips_blanks_witness :
  Utils.build_constraint_list [py " pl_masse > 0 "; py "   "; py ""; py "default_flag=1"]
  = py "pl_masse > 0 AND default_flag=1"
  /\ Utils.build_constraint_list ([py "a"] ++ py "  " :: [py "b"])
     = Utils.build_constraint_list ([py "a"] ++ [py "b"]).
Proof.
  split; [reflexivity|].
  apply (proj1 build_constraint_list_skips_blanks [py "a"] [py "b"] (py "  ")).
  reflexivity.
Defined.

(** X10. [validate_table_name] accepts the name of every table of the
    [TableName] enumeration; it rejects every name that holds one of the
    forbidden fragments, in whatever letter case and whatever the list of
    valid tables; and an empty list of valid tables counts as none given. *)
Theorem validate_table_name_guards :
  (forall t : Models.TableName,
      Utils.validate_table_name (Models.TableName_value t) None = true)
  /\ (forall (name fragment : str) (valid_tables : option (list str)),
         In fragment Utils.forbidden_chars ->
         contains (lower name) fragment = true ->
         Utils.validate_table_name name valid_tables = false)
  /\ (forall name : str,
         Utils.validate_table_name name (Some []) = Utils.validate_table_name name None).
Proof.
  conjs.
  - intro t. destruct t; reflexivity.
  - intros name fragment vt Hin Hc. unfold Utils.validate_table_name.
    destruct name as [|c name]; [reflexivity|].
    replace (existsb (fun char => contains (lower (c :: name)) char) Utils.forbidden_chars)
      with true; [reflexivity|].
    symmetry. apply existsb_exists. now exists fragment.
  - intro name. unfold Utils.validate_table_name.
    destruct name; [reflexivity|]. now destruct (existsb _ _).
Qed.

Lemma validate_table_name_guards_witness :
  Utils.validate_table_name (py "ps; DROP table x") (Some [py "ps; DROP table x"])
  = false.
Proof.
  apply (proj1 (proj2 validate_table_name_guards) (py "ps; DROP table x") (py "drop")).
  - simpl. tauto.
  - reflexivity.
Defined.

(** ** [data_bindings/transforms.py]: the record that comes out *)

Lemma normalize_idem (s : str) : canonical (Transforms._normalize_column_name (VStr s)).
Proof.
  unfold canonical. apply normalize_fix.
  - apply Forall_forall. intros c Hc. exact (normalize_settled s c Hc).
  - unfold Transforms._normalize_column_name, strip_char.
    destruct (strip_by_infix (Ascii.eqb "_")
                (sub_underscores (sub_nonword (lower s)))) as (a & b & E).
    pose proof (sub_underscores_no_double (sub_nonword (lower s))) as H.
    rewrite E in H. now apply no_double_app_r, no_double_app_l in H.
  - unfold Transforms._normalize_column_name, strip_char. apply strip_by_idem.
Qed.

Lemma str_eqb_neq (a b : str) : str_eqb a b = false <-> a <> b.
Proof.
  split.
  - intros H E. apply str_eqb_eq in E. congruence.
  - intro H. destruct (str_eqb a b) eqn:E; [|reflexivity].
    apply str_eqb_eq in E. contradiction.
Qed.

Lemma dict_set_keys (k : str) (v : value) (d : Transforms.dict) :
  keys (Transforms.dict_set k v d) = if str_in k (keys d) then keys d else keys d ++ [k].
Proof.
  unfold keys, str_in. induction d as [|[k' v'] d IH]; [reflexivity|].
  cbn [Transforms.dict_set map existsb fst].
  destruct (str_eqb k' k) eqn:E.
  - apply str_eqb_eq in E. subst k'. now rewrite str_eqb_refl.
  - assert (E' : str_eqb k k' = false).
    { apply str_eqb_neq. apply str_eqb_neq in E. congruence. }
    rewrite E'. cbn [map fst orb]. rewrite IH.
    now destruct (existsb (str_eqb k) (map fst d)).
Qed.

Lemma str_in_In (k : str) (l : list str) : str_in k l = true <-> In k l.
Proof.
  unfold str_in. rewrite existsb_exists. split.
  - intros (x & Hx & E). apply str_eqb_eq in E. now subst.
  - intro H. exists k. split; [exact H | apply str_eqb_refl].
Qed.

Lemma dict_set_keys_In (k k0 : str) (v : value) (d : Transforms.dict) :
  In k0 (keys (Transforms.dict_set k v d)) <-> k0 = k \/ In k0 (keys d).
Proof.
  rewrite dict_set_keys. destruct (str_in k (keys d)) eqn:E.
  - apply str_in_In in E. split; [now right|]. intros [->|H]; assumption.
  - rewrite in_app_iff. simpl. split.
    + intros [H|[H|[]]]; [now right | now left].
    + intros [H|H]; [right; now left | now left].
Qed.

Lemma dict_set_keys_NoDup (k : str) (v : value) (d : Transforms.dict) :
  NoDup (keys d) -> NoDup (keys (Transforms.dict_set k v d)).
Proof.
  intro H. rewrite dict_set_keys. destruct (str_in k (keys d)) eqn:E; [exact H|].
  apply NoDup_app; [exact H | repeat constructor; easy |].
  intros x Hx [<-|[]]. apply str_in_In in Hx. congruence.
Qed.

Lemma dict_get_set_same (k : str) (v : value) (d : Transforms.dict) :
  Transforms.dict_get k (Transforms.dict_set k v d) = Some v.
Proof.
  induction d as [|[k' v'] d IH]; cbn [Transforms.dict_set Transforms.dict_get].
  - now rewrite str_eqb_refl.
  - destruct (str_eqb k' k) eqn:E; cbn [Transforms.dict_get]; now rewrite E.
Qed.

Lemma dict_get_set_other (k k0 : str) (v : value) (d : Transforms.dict) :
  k0 <> k ->
  Transforms.dict_get k (Transforms.dict_set k0 v d) = Transforms.dict_get k d.
Proof.
  intro H. induction d as [|[k' v'] d IH]; cbn [Transforms.dict_set Transforms.dict_get].
  - apply str_eqb_neq in H. now rewrite H.
  - destruct (str_eqb k' k0) eqn:E; cbn [Transforms.dict_get].
    + apply str_eqb_eq in E. subst k'.
      apply str_eqb_neq in H. now rewrite H.
    + now rewrite IH.
Qed.

(** When a sequence of two printing computations succeeds, both did. *)
Lemma bind_Ok (A B : Type) (m : Transforms.printing A) (k : A -> Transforms.printing B)
    (b : B) (out : list str) :
  Transforms.bind m k = (Ok b, out) ->
  exists a o1 o2, m = (Ok a, o1) /\ k a = (Ok b, o2) /\ out = o1 ++ o2.
Proof.
  unfold Transforms.bind. destruct m as [[a|e] o1]; [|discriminate].
  destruct (k a) as [r o2] eqn:E. intro H. injection H as -> <-.
  now exists a, o1, o2.
Qed.

(** The loop of [transform_record], from a record [transformed] so far. *)
Lemma transform_items_keys (self : Transforms.DataTransformer)
    (items transformed d : Transforms.dict) (out : list str) :
  Transforms.transform_items self items transformed = (Ok d, out) ->
  (NoDup (keys transformed) -> NoDup (keys d))
  /\ (forall k, In k (keys d) <->
                In k (keys transformed)
                \/ In k (map (fun kv => Transforms._normalize_column_name (VStr (fst kv)))
                           items)).
Proof.
  revert transformed out. induction items as [|[k v] items IH]; intros t out H.
  - cbn in H. injection H as <- _. split; [easy|]. intro k. simpl. tauto.
  - cbn [Transforms.transform_items] in H.
    apply bind_Ok in H as (v1 & o1 & o2 & _ & H & _).
    destruct (IH _ _ H) as [Hn Hk]. split.
    + intro Ht. apply Hn. now apply dict_set_keys_NoDup.
    + intro k0. rewrite Hk, dict_set_keys_In. cbn [map fst In]. split.
      * intros [[->|Hin]|Hin]; [right; now left | now left | right; now right].
      * intros [Hin|[<-|Hin]]; [left; now right | left; now left | now right].
Qed.

(** X11. Whatever the rules, the record [transform_record] returns has
    distinct keys, every key is a canonical field name, and the keys are
    the canonical names of the fields of the input, no more and no less. *)
Theorem transform_record_keys :
  forall (self : Transforms.DataTransformer) (record d : Transforms.dict)
         (out : list str),
    Transforms.transform_record self record = (Ok d, out) ->
    NoDup (keys d)
    /\ Forall canonical (keys d)
    /\ (forall k, In k (keys d) <->
                  exists k0, In k0 (keys record)
                             /\ k = Transforms._normalize_column_name (VStr k0)).
Proof.
  intros self record d out H. unfold Transforms.transform_record in H.
  destruct (transform_items_keys self record [] d out H) as [Hn Hk].
  assert (Hk' : forall k, In k (keys d) <->
                          exists k0, In k0 (keys record)
                                     /\ k = Transforms._normalize_column_name (VStr k0)).
  { intro k. rewrite Hk. unfold keys. split.
    - intros [[]|Hin]. apply in_map_iff in Hin as ([k0 v0] & <- & Hin).
      exists k0. split; [|reflexivity]. apply in_map_iff. now exists (k0, v0).
    - intros (k0 & Hin & ->). right. apply in_map_iff in Hin as ([k1 v1] & <- & Hin).
      apply in_map_iff. now exists (k1, v1). }
  conjs.
  - apply Hn. constructor.
  - apply Forall_forall. intros k Hin. apply Hk' in Hin as (k0 & _ & ->).
    apply normalize_idem.
  - exact Hk'.
Qed.

Lemma transform_record_keys_witness :
  NoDup (keys [(py "pl_name", VStr (py "b")); (py "pl_masse", VInt 23)])
  /\ Forall canonical (keys [(py "pl_name", VStr (py "b")); (py "pl_masse", VInt 23)]).
Proof.
  destruct (transform_record_keys Transforms.init
              [(py "PL_NAME", VStr (py "a")); (py "pl name", VStr (py "b"));
               (py "Pl-Masse", VStr (py "2.3"))]
              [(py "pl_name", VStr (py "b")); (py "pl_masse", VInt 23)] []
              eq_refl) as (H1 & H2 & _).
  now split.
Defined.

Lemma transform_items_get_other (self : Transforms.DataTransformer)
    (items transformed d : Transforms.dict) (out : list str) (key : str) :
  Transforms.transform_items self items transformed = (Ok d, out) ->
  (forall kv, In kv items -> Transforms._normalize_column_name (VStr (fst kv)) <> key) ->
  Transforms.dict_get key d = Transforms.dict_get key transformed.
Proof.
  revert transformed out. induction items as [|[k v] items IH]; intros t out H Hne.
  - cbn in H. now injection H as <- _.
  - cbn [Transforms.transform_items] in H.
    apply bind_Ok in H as (v1 & o1 & o2 & _ & H & _).
    rewrite (IH _ _ H) by (intros kv Hin; apply Hne; now right).
    apply dict_get_set_other. apply (Hne (k, v)). now left.
Qed.

(** X12. When several fields of a record have the same canonical name,
    the last of them decides: looking that name up in what
    [transform_record] returns gives what the rules make of the value of
    the last such field. *)
Theorem transform_record_last_field_wins :
  forall (self : Transforms.DataTransformer) (before after d : Transforms.dict)
         (k : str) (v : value) (out : list str),
    Transforms.transform_record self (before ++ (k, v) :: after) = (Ok d, out) ->
    (forall kv, In kv after ->
                Transforms._normalize_column_name (VStr (fst kv))
                <> Transforms._normalize_column_name (VStr k)) ->
    exists v1 printed,
      Transforms.apply_rules (Transforms._normalize_column_name (VStr k)) self v
      = (Ok v1, printed)
      /\ Transforms.dict_get (Transforms._normalize_column_name (VStr k)) d = Some v1.
Proof.
  intros self before after d k v out. unfold Transforms.transform_record.
  generalize (@nil (str * value)) as t. revert out.
  induction before as [|[k0 v0] before IH]; intros out t H Hne.
  - cbn [app Transforms.transform_items] in H.
    apply bind_Ok in H as (v1 & o1 & o2 & Hv & H & _).
    exists v1, o1. split; [exact Hv|].
    rewrite (transform_items_get_other _ _ _ _ _ _ H Hne).
    apply dict_get_set_same.
  - cbn [app Transforms.transform_items] in H.
    apply bind_Ok in H as (v1 & o1 & o2 & _ & H & _).
    exact (IH _ _ H Hne).
Qed.

Lemma transform_record_last_field_wins_witness :
  exists v1 printed,
    Transforms.apply_rules (Transforms._normalize_column_name (VStr (py "pl name")))
      Transforms.init (VStr (py "b")) = (Ok v1, printed)
    /\ Transforms.dict_get (Transforms._normalize_column_name (VStr (py "pl name")))
         [(py "pl_name", VStr (py "b")); (py "pl_masse", VInt 23)] = Some v1.
Proof.
  apply (transform_record_last_field_wins Transforms.init
           [(py "PL_NAME", VStr (py "a"))] [(py "Pl-Masse", VStr (py "2.3"))]
           [(py "pl_name", VStr (py "b")); (py "pl_masse", VInt 23)]
           (py "pl name") (VStr (py "b")) [] eq_refl).
  intros kv [<-|[]]. discriminate.
Defined.

(** ** [data_bindings/transforms.py]: which rules can fire *)

Lemma apply_rules_app (key : str) (rules1 rules2 : list Transforms.TransformRule)
    (v : value) :
  Transforms.apply_rules key (rules1 ++ rules2) v
  = Transforms.bind (Transforms.apply_rules key rules1 v)
      (Transforms.apply_rules key rules2).
Proof.
  revert v. induction rules1 as [|r rules1 IH]; intro v.
  - cbn [app Transforms.apply_rules]. now rewrite bind_ret_l.
  - cbn [app Transforms.apply_rules]. unfold Transforms.bind at 1 3.
    destruct (Transforms.apply_rule key r v) as [[v1|e] o1]; [|reflexivity].
    rewrite IH. unfold Transforms.bind.
    destruct (Transforms.apply_rules key rules1 v1) as [[v2|e] o2].
    + destruct (Transforms.apply_rules key rules2 v2) as [r2 o3].
      now rewrite app_assoc.
    + reflexivity.
Qed.

Lemma bind_ext (A B : Type) (m : Transforms.printing A)
    (k1 k2 : A -> Transforms.printing B) :
  (forall a, k1 a = k2 a) -> Transforms.bind m k1 = Transforms.bind m k2.
Proof.
  intro H. unfold Transforms.bind. destruct m as [[a|e] o]; [|reflexivity].
  now rewrite H.
Qed.

(** A rule for one column does nothing on a field of another name. *)
Lemma apply_rule_other_column (key : str) (rule : Transforms.TransformRule) (v : value) :
  Transforms.column rule <> py "*" ->
  Transforms.column rule <> key ->
  Transforms.apply_rule key rule v = Transforms.ret v.
Proof.
  intros H1 H2. unfold Transforms.apply_rule.
  apply str_eqb_neq in H1, H2. now rewrite H1, H2.
Qed.

Lemma transform_items_ext (self1 self2 : Transforms.DataTransformer)
    (items transformed : Transforms.dict) :
  (forall kv, In kv items ->
     Transforms.apply_rules (Transforms._normalize_column_name (VStr (fst kv))) self1 (snd kv)
     = Transforms.apply_rules (Transforms._normalize_column_name (VStr (fst kv))) self2 (snd kv)) ->
  Transforms.transform_items self1 items transformed
  = Transforms.transform_items self2 items transformed.
Proof.
  revert transformed. induction items as [|[k v] items IH]; intros t H; [reflexivity|].
  cbn [Transforms.transform_items].
  pose proof (H (k, v) (or_introl eq_refl)) as E. cbn [fst snd] in E.
  rewrite E. apply bind_ext. intro tv.
  apply IH. intros kv Hin. apply H. now right.
Qed.

(** X13. A rule registered under a column name that is not a canonical
    field name (and is not the wildcard) never fires: with it or without
    it, [transform_record] returns the same for every record. *)
Theorem rule_under_non_canonical_column_is_dead :
  forall (rule : Transforms.TransformRule) (before after : list Transforms.TransformRule)
         (record : Transforms.dict),
    Transforms.column rule <> py "*" ->
    ~ canonical (Transforms.column rule) ->
    Transforms.transform_record (before ++ rule :: after) record
    = Transforms.transform_record (before ++ after) record.
Proof.
  intros rule before after record Hw Hc. unfold Transforms.transform_record.
  apply transform_items_ext. intros [k v] _. cbn [fst snd].
  rewrite !apply_rules_app. apply bind_ext. intro v1.
  cbn [Transforms.apply_rules]. rewrite apply_rule_other_column.
  - apply bind_ret_l.
  - exact Hw.
  - intro E. apply Hc. rewrite E. apply normalize_idem.
Qed.

Lemma rule_under_non_canonical_column_is_dead_witness :
  Transforms.transform_record (Transforms.init ++ nulling_rule (py "PL_MASSE") :: [])
    [(py "PL_MASSE", VStr (py "42"))]
  = (Ok [(py "pl_masse", VInt 42)], []).
Proof.
  rewrite (rule_under_non_canonical_column_is_dead (nulling_rule (py "PL_MASSE"))
             Transforms.init [] [(py "PL_MASSE", VStr (py "42"))]).
  - reflexivity.
  - discriminate.
  - unfold canonical. discriminate.
Defined.

(** An exact match is a match up to case. *)
Lemma dict_get_find (s : str) (mapping : Transforms.dict) :
  find (fun kv => str_eqb (lower s) (lower (fst kv))) mapping = None ->
  Transforms.dict_get s mapping = None.
Proof.
  induction mapping as [|[k v] mapping IH]; [reflexivity|].
  cbn [find Transforms.dict_get fst].
  destruct (str_eqb (lower s) (lower k)) eqn:E; [discriminate|].
  intro H. destruct (str_eqb k s) eqn:Ek; [|exact (IH H)].
  apply str_eqb_eq in Ek. subst k. now rewrite str_eqb_refl in E.
Qed.

(** X14. With a mapping keyed by strings, [map_categories] gives a string
    the value of the first key equal to it up to letter case, and leaves
    alone a string that no key equals up to case and every value that is
    not a string: the exact lookup it falls back on never finds anything. *)
Theorem map_categories_first_match :
  forall (mapping : Transforms.dict) (v : value),
    Transforms.map_categories mapping v
    = match v with
      | VStr s =>
          match find (fun kv => str_eqb (lower s) (lower (fst kv))) mapping with
          | Some (_, mapped_value) => mapped_value
          | None => v
          end
      | _ => v
      end.
Proof.
  intros mapping [| | | |s]; try reflexivity.
  unfold Transforms.map_categories.
  destruct (find _ mapping) as [[k m]|] eqn:E; [reflexivity|].
  now rewrite (dict_get_find s mapping E).
Qed.

Lemma word_not_space (c : ascii) : is_word c = true -> is_space c = false.
Proof. destruct c as [[] [] [] [] [] [] [] []]; intro H; try discriminate H; reflexivity. Qed.

Lemma normalize_strip (s : str) :
  strip (Transforms._normalize_column_name (VStr s))
  = Transforms._normalize_column_name (VStr s).
Proof.
  apply strip_by_fix. intros c Hc.
  apply word_not_space. exact (proj1 (normalize_settled s c Hc)).
Qed.

(** What the default rules make of a string: null, a number, or the
    canonical form of the string. *)
Lemma default_result_str (s : str) :
  match default_result (VStr s) with
  | VStr r => r = Transforms._normalize_column_name (VStr s)
  | VBool _ => False
  | _ => True
  end.
Proof.
  unfold default_result. cbv zeta. unfold Transforms._handle_nulls.
  destruct (str_in _ Transforms.null_values); [exact I|].
  destruct (Transforms._is_numeric_string _); [|reflexivity].
  unfold Transforms._convert_numeric. rewrite normalize_strip.
  destruct (Transforms._normalize_column_name (VStr s)) as [|c n] eqn:E; [exact I|].
  destruct (negb _ && negb _).
  - now destruct (int_of_str (c :: n)).
  - now destruct (float_of_str (c :: n)).
Qed.

Lemma find_filter (A : Type) (P Q : A -> bool) (l : list A) :
  (forall x, P x = true -> Q x = true) -> find P (filter Q l) = find P l.
Proof.
  intro H. induction l as [|x l IH]; [reflexivity|].
  cbn [filter find]. destruct (P x) eqn:Ep.
  - rewrite (H x Ep). cbn [find]. now rewrite Ep.
  - destruct (Q x); cbn [find]; rewrite ?Ep; exact IH.
Qed.

(** On a canonical string, only the keys made of word characters count. *)
Lemma map_categories_word_keys (mapping : Transforms.dict) (s : str) :
  Transforms.map_categories mapping (VStr (Transforms._normalize_column_name (VStr s)))
  = Transforms.map_categories (filter word_key mapping)
      (VStr (Transforms._normalize_column_name (VStr s))).
Proof.
  set (r := Transforms._normalize_column_name (VStr s)).
  assert (Hr : lower r = r).
  { apply map_fix. intros c Hc. exact (proj2 (normalize_settled s c Hc)). }
  assert (Hf : find (fun kv => str_eqb (lower r) (lower (fst kv))) (filter word_key mapping)
               = find (fun kv => str_eqb (lower r) (lower (fst kv))) mapping).
  { apply find_filter. intros [k v] E. cbn [fst] in E. apply str_eqb_eq in E.
    unfold word_key. cbn [fst]. rewrite <- E, Hr. apply forallb_forall.
    intros c Hc. exact (proj1 (normalize_settled s c Hc)). }
  unfold Transforms.map_categories. rewrite Hf.
  destruct (find (fun kv => str_eqb (lower r) (lower (fst kv))) mapping)
    as [[k m]|] eqn:E; [reflexivity|].
  assert (Hf' : find (fun kv => str_eqb (lower r) (lower (fst kv)))
                  (filter word_key mapping) = None) by congruence.
  now rewrite (dict_get_find r mapping E), (dict_get_find r _ Hf').
Qed.

(** X15. In a transformer with the default rules and a categorical
    mapping, a mapping key that holds a character other than a letter, a
    digit or an underscore (a blank, say) is never used on a field whose
    value is a string: the mapping rule sees the canonical form of the
    string.  So [transform_record] returns the same with such keys as
    without them. *)
Theorem categorical_mapping_word_keys_only :
  forall (column : str) (mapping record : Transforms.dict),
    Forall (fun kv => exists s, snd kv = VStr s) record ->
    Transforms.transform_record
      (Transforms.add_categorical_mapping column mapping Transforms.init) record
    = Transforms.transform_record
        (Transforms.add_categorical_mapping column (filter word_key mapping)
           Transforms.init) record.
Proof.
  intros column mapping record H. unfold Transforms.transform_record.
  apply transform_items_ext. intros [k v] Hin.
  rewrite Forall_forall in H. destruct (H _ Hin) as [s Hs]. cbn [fst snd] in *. subst v.
  unfold Transforms.add_categorical_mapping, Transforms.add_rule.
  rewrite !apply_rules_app, !apply_default_rules.
  unfold Transforms.bind. cbn [Transforms.apply_rules].
  unfold Transforms.apply_rule.
  cbn [Transforms.column Transforms.condition Transforms.transform_func].
  destruct (str_eqb column (py "*") || str_eqb column _); [|reflexivity].
  rewrite !bind_ret_l.
  pose proof (default_result_str s) as Hd.
  destruct (default_result (VStr s)) as [| | | |r]; try reflexivity.
  subst r. now rewrite map_categories_word_keys.
Qed.

Lemma categorical_mapping_word_keys_only_witness :
  filter word_key discovery_method_mapping
  = [(py "Transit", VStr (py "transit")); (py "Imaging", VStr (py "direct_imaging"));
     (py "Microlensing", VStr (py "microlensing"))]
  /\ Transforms.transform_record
       (Transforms.add_categorical_mapping (py "discoverymethod")
          discovery_method_mapping Transforms.init)
       [(py "discoverymethod", VStr (py "Eclipse Timing Variations"))]
     = (Ok [(py "discoverymethod", VStr (py "eclipse_timing_variations"))], []).
Proof.
  split; [reflexivity|].
  rewrite (categorical_mapping_word_keys_only (py "discoverymethod")
             discovery_method_mapping
             [(py "discoverymethod", VStr (py "Eclipse Timing Variations"))]).
  - reflexivity.
  - repeat constructor. now exists (py "Eclipse Timing Variations").
Defined.

(** ** [data_bindings/sources.py]: batching *)

Lemma transform_batch_Ok_app (self : Transforms.DataTransformer)
    (a b : list Transforms.dict) (da db : list Transforms.dict) (oa ob : list str) :
  Transforms.transform_batch self a = (Ok da, oa) ->
  Transforms.transform_batch self b = (Ok db, ob) ->
  Transforms.transform_batch self (a ++ b) = (Ok (da ++ db), oa ++ ob).
Proof.
  revert da oa. induction a as [|r a IH]; intros da oa Ha Hb.
  - cbn in Ha. injection Ha as <- <-. exact Hb.
  - cbn [Transforms.transform_batch] in Ha.
    apply bind_Ok in Ha as (x & o1 & o2 & Hr & Ha & ->).
    apply bind_Ok in Ha as (rs & o3 & o4 & Ha & Hret & ->).
    unfold Transforms.ret in Hret. injection Hret as <- <-.
    cbn [app Transforms.transform_batch]. rewrite Hr, (IH rs o3 Ha Hb).
    unfold Transforms.bind, Transforms.ret. cbn [app].
    now rewrite !app_nil_r, app_assoc.
Qed.

Lemma transform_batch_Ok_length (self : Transforms.DataTransformer)
    (a da : list Transforms.dict) (oa : list str) :
  Transforms.transform_batch self a = (Ok da, oa) -> length da = length a.
Proof.
  revert da oa. induction a as [|r a IH]; intros da oa Ha.
  - cbn in Ha. now injection Ha as <- _.
  - cbn [Transforms.transform_batch] in Ha.
    apply bind_Ok in Ha as (x & o1 & o2 & _ & Ha & _).
    apply bind_Ok in Ha as (rs & o3 & o4 & Ha & Hret & _).
    unfold Transforms.ret in Hret. injection Hret as <- _.
    cbn [length]. f_equal. exact (IH rs o3 Ha).
Qed.

Lemma range_from_lt (fuel i stop step j : nat) :
  In j (Sources.range_from fuel i stop step) -> (j < stop)%nat.
Proof.
  revert i. induction fuel as [|fuel IH]; intro i; [easy|].
  cbn [Sources.range_from]. destruct (i <? stop)%nat eqn:E; [|easy].
  intros [<-|H]; [now apply Nat.ltb_lt | exact (IH _ H)].
Qed.

(** The slices at the indices of the range, one after the other, are the
    list from the first index on. *)
Lemma range_from_slices (A : Type) (l : list A) (bs fuel i : nat) :
  (0 < bs)%nat ->
  (length l - i <= fuel)%nat ->
  concat (map (fun j => firstn bs (skipn j l)) (Sources.range_from fuel i (length l) bs))
  = skipn i l.
Proof.
  intro Hbs. revert i. induction fuel as [|fuel IH]; intros i Hf.
  - cbn. symmetry. apply skipn_all2. lia.
  - cbn [Sources.range_from]. destruct (i <? length l)%nat eqn:E.
    + apply Nat.ltb_lt in E. cbn [map concat]. rewrite IH by lia.
      rewrite <- (firstn_skipn bs (skipn i l)) at 2. f_equal.
      rewrite skipn_skipn. f_equal. lia.
    + apply Nat.ltb_ge in E. cbn. symmetry. now apply skipn_all2.
Qed.

Lemma yield_batches_spec (self : Sources.BaseNASASource) (records : list Transforms.dict)
    (idx : list nat) :
  Forall tame (Sources.transformer self) ->
  exists batches out,
    Sources.yield_batches self records idx = (batches, None, out)
    /\ Transforms.transform_batch (Sources.transformer self)
         (concat (map (fun j => firstn (Z.to_nat (Sources.batch_size self))
                                  (skipn j records)) idx))
       = (Ok (concat batches), out)
    /\ Forall2 (fun j batch =>
                  length batch
                  = length (firstn (Z.to_nat (Sources.batch_size self)) (skipn j records)))
         idx batches.
Proof.
  intro Ht. induction idx as [|i idx (batches & out & Hy & Hb & Hl)].
  - exists [], []. now repeat split.
  - cbn [Sources.yield_batches map concat].
    destruct (@transform_batch_tame (Sources.transformer self)
                (firstn (Z.to_nat (Sources.batch_size self)) (skipn i records)) Ht)
      as (d1 & o1 & _ & E1).
    rewrite E1, Hy. exists (d1 :: batches), (o1 ++ out). conjs.
    + reflexivity.
    + cbn [concat]. now apply transform_batch_Ok_app.
    + constructor; [exact (transform_batch_Ok_length _ _ _ _ E1) | exact Hl].
Qed.

(** X16. With a batch size above zero and rules that are tame (their
    conditions do not raise, their transforms raise errors only),
    [_batch_records] raises nothing, its batches put end to end are exactly
    what [transform_batch] makes of all the records at once, with the same
    lines printed, and every batch holds at least one record and at most
    [batch_size]. *)
Theorem batch_records_is_transparent :
  forall (self : Sources.BaseNASASource) (records : list Transforms.dict),
    (0 < Sources.batch_size self)%Z ->
    Forall tame (Sources.transformer self) ->
    exists batches out,
      Sources._batch_records self records = (batches, None, out)
      /\ Transforms.transform_batch (Sources.transformer self) records
         = (Ok (concat batches), out)
      /\ Forall (fun batch =>
                   (0 < length batch <= Z.to_nat (Sources.batch_size self))%nat)
           batches.
Proof.
  intros self records Hbs Ht. unfold Sources._batch_records, Sources.range0.
  destruct (Sources.batch_size self =? 0)%Z eqn:E0; [apply Z.eqb_eq in E0; lia|].
  destruct (Sources.batch_size self <? 0)%Z eqn:E1; [apply Z.ltb_lt in E1; lia|].
  set (bs := Z.to_nat (Sources.batch_size self)).
  assert (Hpos : (0 < bs)%nat) by (unfold bs; lia).
  destruct (yield_batches_spec self records
              (Sources.range_from (length records) 0 (length records) bs) Ht)
    as (batches & out & Hy & Hb & Hl).
  exists batches, out. conjs.
  - exact Hy.
  - fold bs in Hb. rewrite range_from_slices in Hb by lia. exact Hb.
  - fold bs in Hl.
    assert (Hidx : Forall (fun j => (j < length records)%nat)
                     (Sources.range_from (length records) 0 (length records) bs)).
    { apply Forall_forall. intros j Hj. exact (range_from_lt _ _ _ _ _ Hj). }
    clear Hy Hb. revert Hl Hidx.
    generalize (Sources.range_from (length records) 0 (length records) bs).
    intros idx Hl. induction Hl as [|j batch idx batches Hjb _ IH]; intro Hidx;
      [constructor|].
    inversion Hidx as [|? ? Hj Hidx']; subst.
    constructor; [|exact (IH Hidx')].
    rewrite Hjb, length_firstn, length_skipn. lia.
Qed.

Lemma batch_records_is_transparent_witness :
  exists batches out,
    Sources._batch_records (Sources.mk_source Transforms.init 2)
      [[(py "A", VStr (py "1"))]; [(py "B", VStr (py "2"))]; [(py "C", VStr (py "N/A"))]]
    = (batches, None, out)
    /\ Transforms.transform_batch Transforms.init
         [[(py "A", VStr (py "1"))]; [(py "B", VStr (py "2"))]; [(py "C", VStr (py "N/A"))]]
       = (Ok (concat batches), out)
    /\ Forall (fun batch => (0 < length batch <= Z.to_nat 2)%nat) batches.
Proof.
  apply (batch_records_is_transparent (Sources.mk_source Transforms.init 2)
           [[(py "A", VStr (py "1"))]; [(py "B", VStr (py "2"))];
            [(py "C", VStr (py "N/A"))]]).
  - reflexivity.
  - exact default_rules_tame.
Defined.

(** The batches of the witness, computed. *)
Example batch_records_of_three :
  Sources._batch_records (Sources.mk_source Transforms.init 2)
    [[(py "A", VStr (py "1"))]; [(py "B", VStr (py "2"))]; [(py "C", VStr (py "N/A"))]]
  = ([[[(py "a", VInt 1)]; [(py "b", VInt 2)]]; [[(py "c", VStr (py "n_a"))]]], None, []).
Proof. reflexivity. Qed.

(** X17. A batch size below zero makes [_batch_records] yield nothing,
    whatever the records, and raise nothing: the records are dropped.  A
    batch size of zero makes it raise a [ValueError] before any batch. *)
Theorem batch_records_without_positive_size :
  forall (self : Sources.BaseNASASource) (records : list Transforms.dict),
    ((Sources.batch_size self < 0)%Z ->
     Sources._batch_records self records = ([], None, []))
    /\ (Sources.batch_size self = 0%Z ->
        exists msg,
          Sources._batch_records self records = ([], Some (mk_exn ValueError msg), [])).
Proof.
  intros self records. unfold Sources._batch_records, Sources.range0. split; intro H.
  - destruct (Sources.batch_size self =? 0)%Z eqn:E0; [apply Z.eqb_eq in E0; lia|].
    apply Z.ltb_lt in H. now rewrite H.
  - rewrite H. eexists. reflexivity.
Qed.

Lemma batch_records_without_positive_size_witness :
  Sources._batch_records (Sources.mk_source Transforms.init (-1))
    [[(py "A", VStr (py "1"))]; [(py "B", VStr (py "2"))]]
  = ([], None, []).
Proof.
  apply (proj1 (batch_records_without_positive_size
                  (Sources.mk_source Transforms.init (-1))
                  [[(py "A", VStr (py "1"))]; [(py "B", VStr (py "2"))]])).
  reflexivity.
Defined.
